(** * expodb: the coordination layer of a gossip + raft key-value node

    A shallow embedding of the server package (membership handler, write
    path, lifecycle) and of the HTTP front end, with the properties the
    specification states about them. *)

From Stdlib Require Import ZArith String Ascii List Lia Bool.
From stdpp Require Import base strings gmap list.

Local Open Scope string_scope.
Local Open Scope list_scope.

(** ** A state-and-trace monad

    Go methods mutate their receiver and call out to agents.  A computation
    takes the receiver's state and returns a result, the new state and the
    calls and log lines it issued, oldest first. *)

Definition Eff (S E A : Type) : Type := S -> A * S * list E.

Definition ret {S E A} (a : A) : Eff S E A := fun s => (a, s, []).

Definition bind {S E A B} (c : Eff S E A) (k : A -> Eff S E B) : Eff S E B :=
  fun s =>
    let '(a, s1, t1) := c s in
    let '(b, s2, t2) := k a s1 in
    (b, s2, t1 ++ t2).

Definition emit {S E} (e : E) : Eff S E unit := fun s => (tt, s, [e]).
Definition get {S E} : Eff S E S := fun s => (s, s, []).
Definition put {S E} (s' : S) : Eff S E unit := fun _ => (tt, s', []).

Definition result {S E A} (r : A * S * list E) : A := fst (fst r).
Definition final {S E A} (r : A * S * list E) : S := snd (fst r).
Definition issued {S E A} (r : A * S * list E) : list E := snd r.

Declare Scope eff_scope.
Delimit Scope eff_scope with eff.
Notation "'let*' x := c 'in' k" := (bind c (fun x => k))
  (at level 10, x name, c at level 100, k at level 200) : eff_scope.
Notation "c ;;; k" := (bind c (fun _ => k))
  (at level 100, k at level 200, right associativity) : eff_scope.

(** [for _, x := range xs { body x }] *)
Fixpoint forRange {S E A} (xs : list A) (body : A -> Eff S E unit) : Eff S E unit :=
  match xs with
  | [] => ret tt
  | x :: xs' => bind (body x) (fun _ => forRange xs' body)
  end.

(** [if err != nil { body }] *)
Definition whenErr {S E Err} (err : option Err) (body : Eff S E unit) : Eff S E unit :=
  match err with
  | Some _ => body
  | None => ret tt
  end.

(** ** Go strings *)

Definition strings_HasPrefix (s prefix : string) : bool := String.prefix prefix s.

Fixpoint string_drop (n : nat) (s : string) : string :=
  match n, s with
  | O, _ => s
  | S n', String _ s' => string_drop n' s'
  | S _, EmptyString => EmptyString
  end.

(** [strings.Replace(s, old, new, 1)]: the first occurrence of [old] in [s],
    scanning from the left, is replaced by [new]; [s] is returned unchanged
    when [old] does not occur. *)
Fixpoint strings_Replace_first (s old new : string) : string :=
  if String.prefix old s then new +:+ string_drop (String.length old) s
  else match s with
       | EmptyString => EmptyString
       | String c s' => String c (strings_Replace_first s' old new)
       end.

(** [strings.IndexByte(s, c) >= 0] *)
Fixpoint hasByte (c : ascii) (s : string) : bool :=
  match s with
  | EmptyString => false
  | String d s' => if Ascii.eqb c d then true else hasByte c s'
  end.

(** The double quote, for JSON literals. *)
Definition dq : string := String (ascii_of_nat 34) EmptyString.

(** ** The server package: membership handler and write path *)

Module Server.

(** *** serf events *)

Inductive EventType :=
| EventMemberJoin
| EventMemberLeave
| EventMemberFailed
| EventMemberUpdate
| EventMemberReap
| EventUser
| EventQuery.

Inductive MemberStatus := StatusNone | StatusAlive | StatusLeaving | StatusLeft | StatusFailed.

Record Member := {
  Name : string;
  Addr : string;
  Port : Z;
  Tags : gmap string string;
  Status : MemberStatus
}.

(** [serf.Event] is an interface with three implementations; only a
    [MemberEvent] carries a member event type in its [Type] field. *)
Inductive Event :=
| MemberEvent (Type_ : EventType) (Members : list Member)
| UserEvent (name : string)
| Query (name : string).

Definition Event_EventType (e : Event) : EventType :=
  match e with
  | MemberEvent ty _ => ty
  | UserEvent _ => EventUser
  | Query _ => EventQuery
  end.

(** *** errors, node records and the metadata store *)

Inductive error :=
| MalformedMemberError (member : string)
| EngineError (msg : string).

Inductive NodeStatus := Alive | Left | Failed.

Record nodedata := {
  id : string;
  gossipAddress : string;
  consensusAddress : string;
  status : NodeStatus
}.

Definition Id (n : nodedata) : string := id n.
Definition RaftAddr (n : nodedata) : string := consensusAddress n.

(** Go's zero value of the record, what a function returns beside an error. *)
Definition zero_nodedata : nodedata :=
  {| id := EmptyString; gossipAddress := EmptyString;
     consensusAddress := EmptyString; status := Alive |}.

(** Modelled from the spec: the tag under which a member advertises its
    consensus address.  The spec names no key; nothing below depends on the
    one chosen here. *)
Definition raftAddrTag : string := "raft_addr".

Definition Lookup (i : string) (md : gmap string nodedata) : option nodedata := md !! i.

(** Modelled from the spec: [metadata.Add], whose file is not under src/.
    It parses a gossip member descriptor into a node record and upserts it
    under the member's name; when the consensus-address tag is missing it
    fails with [MalformedMemberError] and leaves the store as it was. *)
Definition metadata_Add (m : Member) (md : gmap string nodedata)
  : gmap string nodedata * (nodedata * option error) :=
  match Tags m !! raftAddrTag with
  | Some addr =>
      let nd := {| id := Name m; gossipAddress := Addr m;
                   consensusAddress := addr; status := Alive |} in
      (<[Name m := nd]> md, (nd, None))
  | None => (md, (zero_nodedata, Some (MalformedMemberError (Name m))))
  end.

(** *** the raft agent, as the server sees it *)

Record KVData := { Key : string; Val : string }.

(** What the consensus engine answers.  [IsLeader] is an instantaneous,
    possibly stale read: its k-th call may answer differently from the one
    before. *)
Record raftAgent := {
  isLeaderAt : nat -> bool;
  addVoterResult : string -> string -> option error;
  applyResult : KVData -> option error
}.

Inductive effect :=
| LogInfo (msg : string)
| LogError (msg : string)
| CallIsLeader (answer : bool)
| CallAddVoter (id peerAddress : string)
| CallApply (kve : KVData).

(** The server's own state: the metadata store, and how many times it has
    read IsLeader so far, which tells the agent's answers apart. *)
Record server := {
  metadata : gmap string nodedata;
  leaderReads : nat
}.

Definition M := Eff server effect.

Section handlers.
Context (raft : raftAgent).
Local Open Scope eff_scope.

Definition logInfo (msg : string) : M unit := emit (LogInfo msg).
Definition logError (msg : string) : M unit := emit (LogError msg).

Definition Add (m : Member) : M (nodedata * option error) :=
  fun n =>
    let '(md, r) := metadata_Add m (metadata n) in
    (r, {| metadata := md; leaderReads := leaderReads n |}, []).

Definition IsLeader : M bool :=
  fun n =>
    let b := isLeaderAt raft (leaderReads n) in
    (b, {| metadata := metadata n; leaderReads := S (leaderReads n) |}, [CallIsLeader b]).

Definition AddVoter (i peerAddress : string) : M (option error) :=
  fun n => (addVoterResult raft i peerAddress, n, [CallAddVoter i peerAddress]).

Definition Apply (kve : KVData) : M (option error) :=
  fun n => (applyResult raft kve, n, [CallApply kve]).

(** [SetKeyVal]: the key of the entry is table, row key and column joined
    with colons. *)
Definition SetKeyVal (table key col val : string) : M (option error) :=
  let kve := {| Key := table +:+ ":" +:+ key +:+ ":" +:+ col; Val := val |} in
  Apply kve.

(** The body of the loop over the members of a join event. *)
Definition joinMember (m : Member) : M unit :=
  let* r := Add m in
  let nodedata := fst r in
  let err := snd r in
  whenErr err (logError "Error processing metadata") ;;;
  let* leader := IsLeader in
  if negb leader then
    logInfo "Not the raft leader, skipping join"
  else
    let* err := AddVoter (Id nodedata) (RaftAddr nodedata) in
    whenErr err (logError "Error joining peer to Raft") ;;;
    logInfo "Peer joined Raft".

Definition HandleEvent (e : Event) : M unit :=
  match Event_EventType e, e with
  | EventMemberJoin, MemberEvent _ members =>
      logInfo "Server Serf Handler: Member Join" ;;;
      forRange members joinMember
  | EventMemberReap, MemberEvent _ _ =>
      logInfo "Server Serf Handler: Member Reap"
  | (EventMemberLeave | EventMemberFailed), MemberEvent _ _ =>
      logInfo "Server Serf Handler: Member Leave/Failed"
  | _, _ =>
      logInfo "Server Serf Handler: Unhandled type"
  end.

End handlers.

(** The AddVoter calls among the effects, in order. *)
Definition addVoterCalls (t : list effect) : list (string * string) :=
  omap (fun e => match e with CallAddVoter i a => Some (i, a) | _ => None end) t.

(** The calls that reconfigure the consensus group or write to it. *)
Definition isEngineCall (e : effect) : bool :=
  match e with
  | CallAddVoter _ _ | CallApply _ => true
  | _ => false
  end.

(** The answers of the IsLeader reads among the effects, in order. *)
Definition leaderChecks (t : list effect) : list bool :=
  omap (fun e => match e with CallIsLeader b => Some b | _ => None end) t.

(** A member the metadata store accepts. *)
Definition accepted (m : Member) : Prop := is_Some (Tags m !! raftAddrTag).

Definition voterOf (m : Member) : string * string :=
  (Name m, default EmptyString (Tags m !! raftAddrTag)).

Definition NewServer : server := {| metadata := ∅; leaderReads := 0 |}.

(** The store holds, under key [k], a record whose id is [k]. *)
Definition holds (k : string) (md : gmap string nodedata) : Prop :=
  exists nd, Lookup k md = Some nd /\ Id nd = k.

(** The effects of the join loop, one segment per member, each taken at the
    state its iteration starts from. *)
Fixpoint segments (raft : raftAgent) (ms : list Member) (n : server) : list (list effect) :=
  match ms with
  | [] => []
  | m :: ms' =>
      issued (joinMember raft m n) :: segments raft ms' (final (joinMember raft m n))
  end.

End Server.

(** ** The lifecycle orchestrator

    [Serve] starts six tasks in one errgroup and waits for all of them.
    The tasks run concurrently; a schedule is the order in which their
    steps happen.  Each label is one step of one task, together with the
    outcome of the agent call it makes. *)

Module Lifecycle.

Inductive task := Running | Returned.

(** Task 3.  After a failed Start it has called [can()] and has yet to
    return the error it holds. *)
Inductive serfRunState :=
| Starting
| StartFailed (e : Server.error)
| AwaitShutdownCh
| SerfRunReturned.

Global Instance error_eq_dec : EqDecision Server.error.
Proof. solve_decision. Defined.

(** A cleanup task blocks on [<-ctx.Done()], then calls Shutdown, then
    returns what Shutdown returned. *)
Inductive cleanup := AwaitDone | InShutdown | CleanupReturned.

Record orch := {
  cancelled : bool;
  firstErr : option Server.error;
  monitor : task;
  http : task;
  serfRun : serfRunState;
  signalTask : task;
  serfCleanup : cleanup;
  raftCleanup : cleanup;
  waitReturned : bool
}.

Definition init : orch := {|
  cancelled := false; firstErr := None;
  monitor := Running; http := Running; serfRun := Starting; signalTask := Running;
  serfCleanup := AwaitDone; raftCleanup := AwaitDone;
  waitReturned := false
|}.

Inductive label :=
(* task 1: [n.monitorLeadership(ctx)] returns [e] *)
| MonitorReturns (e : option Server.error)
(* task 2: the HTTP server is spun off and the task returns nil *)
| HttpReturns
(* task 3: [n.serfAgent.Start()] fails with [e] and the task calls [can()] *)
| SerfStartFails (e : Server.error)
(* task 3: after the log line, the task returns the error of Start *)
| SerfStartErrorReturned (e : Server.error)
(* task 3: Start succeeds; the task blocks on [<-n.serfAgent.ShutdownCh()] *)
| SerfStarted
(* task 3: the shutdown channel is closed: [can()], return nil *)
| SerfShutdownChClosed
(* task 4: the select receives from [signalChan]: [can()], return nil *)
| Interrupt
(* task 4: the select receives from [ctx.Done()]: return nil *)
| SignalTaskSeesDone
(* task 5: [<-ctx.Done()] is over and [n.serfAgent.Shutdown()] is called *)
| SerfShutdownInvoked
(* task 5: that call returns [e], which the task returns *)
| SerfShutdownReturns (e : option Server.error)
(* task 6: [<-ctx.Done()] is over and [n.raftAgent.Shutdown()] is called *)
| RaftShutdownInvoked
(* task 6: that call returns [e], which the task returns *)
| RaftShutdownReturns (e : option Server.error)
(* [g.Wait()] returns in [Serve] *)
| WaitReturns.

(** [can()] *)
Definition cancel (s : orch) : orch :=
  {| cancelled := true; firstErr := firstErr s;
     monitor := monitor s; http := http s; serfRun := serfRun s;
     signalTask := signalTask s; serfCleanup := serfCleanup s;
     raftCleanup := raftCleanup s; waitReturned := waitReturned s |}.

(** A function passed to [g.Go] returns [e]: the group keeps the first
    non-nil error and cancels its context when it sees one. *)
Definition goReturn (e : option Server.error) (s : orch) : orch :=
  match e, firstErr s with
  | Some err, None =>
      {| cancelled := true; firstErr := Some err;
         monitor := monitor s; http := http s; serfRun := serfRun s;
         signalTask := signalTask s; serfCleanup := serfCleanup s;
         raftCleanup := raftCleanup s; waitReturned := waitReturned s |}
  | _, _ => s
  end.

Definition set_monitor (v : task) (s : orch) : orch :=
  {| cancelled := cancelled s; firstErr := firstErr s;
     monitor := v; http := http s; serfRun := serfRun s;
     signalTask := signalTask s; serfCleanup := serfCleanup s;
     raftCleanup := raftCleanup s; waitReturned := waitReturned s |}.

Definition set_http (v : task) (s : orch) : orch :=
  {| cancelled := cancelled s; firstErr := firstErr s;
     monitor := monitor s; http := v; serfRun := serfRun s;
     signalTask := signalTask s; serfCleanup := serfCleanup s;
     raftCleanup := raftCleanup s; waitReturned := waitReturned s |}.

Definition set_serfRun (v : serfRunState) (s : orch) : orch :=
  {| cancelled := cancelled s; firstErr := firstErr s;
     monitor := monitor s; http := http s; serfRun := v;
     signalTask := signalTask s; serfCleanup := serfCleanup s;
     raftCleanup := raftCleanup s; waitReturned := waitReturned s |}.

Definition set_signalTask (v : task) (s : orch) : orch :=
  {| cancelled := cancelled s; firstErr := firstErr s;
     monitor := monitor s; http := http s; serfRun := serfRun s;
     signalTask := v; serfCleanup := serfCleanup s;
     raftCleanup := raftCleanup s; waitReturned := waitReturned s |}.

Definition set_serfCleanup (v : cleanup) (s : orch) : orch :=
  {| cancelled := cancelled s; firstErr := firstErr s;
     monitor := monitor s; http := http s; serfRun := serfRun s;
     signalTask := signalTask s; serfCleanup := v;
     raftCleanup := raftCleanup s; waitReturned := waitReturned s |}.

Definition set_raftCleanup (v : cleanup) (s : orch) : orch :=
  {| cancelled := cancelled s; firstErr := firstErr s;
     monitor := monitor s; http := http s; serfRun := serfRun s;
     signalTask := signalTask s; serfCleanup := serfCleanup s;
     raftCleanup := v; waitReturned := waitReturned s |}.

Definition set_waitReturned (s : orch) : orch :=
  {| cancelled := true; firstErr := firstErr s;
     monitor := monitor s; http := http s; serfRun := serfRun s;
     signalTask := signalTask s; serfCleanup := serfCleanup s;
     raftCleanup := raftCleanup s; waitReturned := true |}.

Definition allReturned (s : orch) : bool :=
  match monitor s, http s, serfRun s, signalTask s, serfCleanup s, raftCleanup s with
  | Returned, Returned, SerfRunReturned, Returned, CleanupReturned, CleanupReturned => true
  | _, _, _, _, _, _ => false
  end.

(** One step of the schedule, [None] when the step is not enabled.
    [monitorLeadership] is not under src/: it may return at any time, with
    or without an error.  The serf agent closes its shutdown channel at a
    time of its own choosing.  A step that returns from a task is placed
    where the errgroup sees the return; the failed Start is two steps,
    since other tasks may return between its [can()] and its return. *)
Definition step (s : orch) (l : label) : option orch :=
  match l with
  | MonitorReturns e =>
      match monitor s with
      | Running => Some (goReturn e (set_monitor Returned s))
      | Returned => None
      end
  | HttpReturns =>
      match http s with
      | Running => Some (goReturn None (set_http Returned s))
      | Returned => None
      end
  | SerfStartFails e =>
      match serfRun s with
      | Starting => Some (set_serfRun (StartFailed e) (cancel s))
      | _ => None
      end
  | SerfStartErrorReturned e =>
      match serfRun s with
      | StartFailed e' =>
          if decide (e = e') then Some (goReturn (Some e) (set_serfRun SerfRunReturned s))
          else None
      | _ => None
      end
  | SerfStarted =>
      match serfRun s with
      | Starting => Some (set_serfRun AwaitShutdownCh s)
      | _ => None
      end
  | SerfShutdownChClosed =>
      match serfRun s with
      | AwaitShutdownCh => Some (goReturn None (set_serfRun SerfRunReturned (cancel s)))
      | _ => None
      end
  | Interrupt =>
      match signalTask s with
      | Running => Some (goReturn None (set_signalTask Returned (cancel s)))
      | Returned => None
      end
  | SignalTaskSeesDone =>
      match signalTask s, cancelled s with
      | Running, true => Some (goReturn None (set_signalTask Returned s))
      | _, _ => None
      end
  | SerfShutdownInvoked =>
      match serfCleanup s, cancelled s with
      | AwaitDone, true => Some (set_serfCleanup InShutdown s)
      | _, _ => None
      end
  | SerfShutdownReturns e =>
      match serfCleanup s with
      | InShutdown => Some (goReturn e (set_serfCleanup CleanupReturned s))
      | _ => None
      end
  | RaftShutdownInvoked =>
      match raftCleanup s, cancelled s with
      | AwaitDone, true => Some (set_raftCleanup InShutdown s)
      | _, _ => None
      end
  | RaftShutdownReturns e =>
      match raftCleanup s with
      | InShutdown => Some (goReturn e (set_raftCleanup CleanupReturned s))
      | _ => None
      end
  | WaitReturns =>
      if allReturned s && negb (waitReturned s) then Some (set_waitReturned s) else None
  end.

(** Running a schedule from a state. *)
Fixpoint run (tr : list label) (s : orch) : option orch :=
  match tr with
  | [] => Some s
  | l :: tr' =>
      match step s l with
      | Some s' => run tr' s'
      | None => None
      end
  end.

(** What [Serve] returns once its wait is over. *)
Definition Serve_result (s : orch) : option (option Server.error) :=
  if waitReturned s then Some (firstErr s) else None.

Definition isSerfInvoke (l : label) : bool :=
  match l with SerfShutdownInvoked => true | _ => false end.
Definition isRaftInvoke (l : label) : bool :=
  match l with RaftShutdownInvoked => true | _ => false end.
Definition isSerfReturn (l : label) : bool :=
  match l with SerfShutdownReturns _ => true | _ => false end.
Definition isRaftReturn (l : label) : bool :=
  match l with RaftShutdownReturns _ => true | _ => false end.
Definition isWaitReturn (l : label) : bool :=
  match l with WaitReturns => true | _ => false end.

(** In schedule [tr], every step satisfying [q] has a step satisfying [p]
    strictly before it. *)
Fixpoint precedes (p q : label -> bool) (tr : list label) : bool :=
  match tr with
  | [] => true
  | l :: tr' => if p l then true else if q l then false else precedes p q tr'
  end.

End Lifecycle.

(** ** The HTTP front end (pkg/server/http.go) *)

Module Http.

Inductive error :=
| DecodeError
| MarshalError
| RaftError (msg : string).

Definition StatusOK : Z := 200.
Definition StatusBadRequest : Z := 400.
Definition StatusNotFound : Z := 404.
Definition StatusMethodNotAllowed : Z := 405.
Definition StatusInternalServerError : Z := 500.

Definition MethodGet : string := "GET".
Definition MethodPost : string := "POST".

(** [time.Second], in nanoseconds. *)
Definition Second : Z := 1000000000.

Record Request := {
  Method : string;
  URL_Path : string;
  Header : gmap string (list string);
  Body : string
}.

(** [http.Header.Get]: the first value under the key, the empty string
    when there is none. *)
Definition Header_Get (h : gmap string (list string)) (key : string) : string :=
  match h !! key with
  | Some (v :: _) => v
  | _ => EmptyString
  end.

(** [http.ResponseWriter]: the status line is fixed by the first
    [WriteHeader]; a later call is superfluous and changes nothing, and a
    [Write] before any [WriteHeader] sends 200 first. *)
Record ResponseWriter := {
  wroteHeader : bool;
  status : Z;
  body : string
}.

Definition NewResponse : ResponseWriter :=
  {| wroteHeader := false; status := 0; body := EmptyString |}.

(** The status the client receives once the handler has returned. *)
Definition responseStatus (w : ResponseWriter) : Z :=
  if wroteHeader w then status w else StatusOK.

Record event := {
  Type_ : string;
  Key : string;
  Value : Z
}.

Record response := {
  resp_Value : Z;
  resp_IsLeader : string;
  resp_Nodes : string
}.

(** encoding/json, as far as the handlers use it: decoding a request body
    into [struct{Value int}], and the bytes of the two structs they
    marshal. *)
Record jsonCodec := {
  decodeValue : string -> Z + error;
  encodeEvent : event -> string;
  encodeResponse : response -> string
}.

(** What the raft node answers: the error of an Apply future, the error of
    an AddVoter future, and the address of the leader it knows. *)
Record raftNode := {
  applyFuture : string -> Z -> option error;
  addVoterFuture : string -> string -> Z -> Z -> option error;
  leaderAddr : string
}.

Record node := {
  raft : raftNode;
  fsm_stateValue : gmap string Z
}.

Inductive effect :=
| LogInfo (msg : string)
| LogError (msg : string)
| RaftApply (cmd : string) (timeout : Z)
| RaftAddVoter (id address : string) (prevIndex timeout : Z)
| RaftLeader.

Definition H := Eff ResponseWriter effect.

Definition isRaftApply (e : effect) : bool :=
  match e with RaftApply _ _ => true | _ => false end.
Definition isRaftAddVoter (e : effect) : bool :=
  match e with RaftAddVoter _ _ _ _ => true | _ => false end.

(** The calls that go through consensus. *)
Definition consensusCalls (t : list effect) : list effect :=
  List.filter (fun e => isRaftApply e || isRaftAddVoter e) t.

Definition removeKeyPath (s : string) : string :=
  strings_Replace_first s "/key" EmptyString.

Section handlers.
Context (json : jsonCodec) (server_node : node).
Local Open Scope eff_scope.

Definition logInfo (msg : string) : H unit := emit (LogInfo msg).
Definition logError (msg : string) : H unit := emit (LogError msg).

Definition WriteHeader (code : Z) : H unit :=
  fun w =>
    if wroteHeader w then (tt, w, [])
    else (tt, {| wroteHeader := true; status := code; body := body w |}, []).

Definition Write (data : string) : H unit :=
  WriteHeader StatusOK ;;;
  fun w => (tt, {| wroteHeader := wroteHeader w; status := status w;
                   body := body w +:+ data |}, []).

Definition statusNotFound : H unit :=
  WriteHeader StatusNotFound ;;;
  Write ("{" +:+ dq +:+ "status" +:+ dq +:+ ": " +:+ dq +:+ "404 not found" +:+ dq +:+ "}").

Definition statusInternalError : H unit :=
  WriteHeader StatusInternalServerError ;;;
  Write ("{" +:+ dq +:+ "status" +:+ dq +:+ ": " +:+ dq +:+ "internal server error" +:+ dq +:+ "}").

(** [json.Marshal] fails on values it cannot represent (channels,
    functions, cycles); the structs marshalled here hold strings and
    integers only, so the error is nil. *)
Definition Marshal_event (e : event) : string * option error := (encodeEvent json e, None).
Definition Marshal_response (r : response) : string * option error := (encodeResponse json r, None).

Definition Apply (cmd : string) (timeout : Z) : H (option error) :=
  fun w => (applyFuture (raft server_node) cmd timeout, w, [RaftApply cmd timeout]).

Definition AddVoter (i address : string) (prevIndex timeout : Z) : H (option error) :=
  fun w => (addVoterFuture (raft server_node) i address prevIndex timeout, w,
            [RaftAddVoter i address prevIndex timeout]).

Definition Leader : H string :=
  fun w => (leaderAddr (raft server_node), w, [RaftLeader]).

Definition handleKeyPost (r : Request) : H unit :=
  let key := removeKeyPath (URL_Path r) in
  match decodeValue json (Body r) with
  | inr _ =>
      logError "Bad request" ;;;
      WriteHeader StatusBadRequest
  | inl value =>
      let ev := {| Type_ := "set"; Key := key; Value := value |} in
      let '(eventBytes, err) := Marshal_event ev in
      match err with
      | Some _ =>
          logError "Failed to marshal response" ;;;
          statusInternalError
      | None =>
          let* err := Apply eventBytes (5 * Second) in
          match err with
          | Some _ => statusInternalError
          | None => WriteHeader StatusOK
          end
      end
  end.

Definition handleKeyGet (r : Request) : H unit :=
  WriteHeader StatusOK ;;;
  let key := removeKeyPath (URL_Path r) in
  match fsm_stateValue server_node !! key with
  | None => statusNotFound
  | Some val =>
      let* leader := Leader in
      let resp := {| resp_Value := val; resp_IsLeader := leader;
                     resp_Nodes := EmptyString |} in
      let '(responseBytes, err) := Marshal_response resp in
      match err with
      | Some _ =>
          logError "Failed to marshal response" ;;;
          statusInternalError
      | None => Write responseBytes
      end
  end.

Definition handleJoin (r : Request) : H unit :=
  let peerAddress := Header_Get (Header r) "Peer-Address" in
  (if String.eqb peerAddress EmptyString then
     logError "Peer-Address not set on request" ;;;
     WriteHeader StatusBadRequest
   else ret tt) ;;;
  let* err := AddVoter peerAddress peerAddress 0 0 in
  match err with
  | Some _ =>
      logError "Error joining peer to Raft" ;;;
      statusInternalError
  | None =>
      logInfo "Peer joined Raft" ;;;
      WriteHeader StatusOK
  end.

Definition handleRequest (r : Request) : H unit :=
  if String.eqb (Method r) MethodPost then handleKeyPost r
  else if String.eqb (Method r) MethodGet then handleKeyGet r
  else WriteHeader StatusMethodNotAllowed.

Definition ServeHTTP (r : Request) : H unit :=
  if strings_HasPrefix (URL_Path r) "/key" then handleRequest r
  else if strings_HasPrefix (URL_Path r) "/join" then handleJoin r
  else WriteHeader StatusBadRequest.

(** One request served on a fresh response writer. *)
Definition serve (r : Request) : unit * ResponseWriter * list effect :=
  ServeHTTP r NewResponse.

End handlers.

End Http.

(** ** Concrete nodes, events and requests used in the examples below *)

Module Fixtures.

Definition leaderAgent : Server.raftAgent :=
  {| Server.isLeaderAt := fun _ => true;
     Server.addVoterResult := fun _ _ => None;
     Server.applyResult := fun _ => None |}.

Definition followerAgent : Server.raftAgent :=
  {| Server.isLeaderAt := fun _ => false;
     Server.addVoterResult := fun _ _ => Some (Server.EngineError "node is not the leader");
     Server.applyResult := fun _ => Some (Server.EngineError "node is not the leader") |}.

(** An agent that led for its first five reads and follows since. *)
Definition lapsedAgent : Server.raftAgent :=
  {| Server.isLeaderAt := fun k => Nat.ltb k 5;
     Server.addVoterResult := fun _ _ => None;
     Server.applyResult := fun _ => None |}.

(** A server that has read IsLeader five times. *)
Definition serverAfterFiveReads : Server.server :=
  {| Server.metadata := ∅; Server.leaderReads := 5 |}.

(** A member that advertises its consensus address. *)
Definition n2 : Server.Member :=
  {| Server.Name := "n2"; Server.Addr := "10.0.0.2"; Server.Port := 7946;
     Server.Tags := {[ Server.raftAddrTag := "10.0.0.2:9000" ]};
     Server.Status := Server.StatusAlive |}.

(** A member without the consensus-address tag. *)
Definition n3 : Server.Member :=
  {| Server.Name := "n3"; Server.Addr := "10.0.0.3"; Server.Port := 7946;
     Server.Tags := ∅; Server.Status := Server.StatusAlive |}.

(** An interrupt arrives and the raft cleanup task is scheduled first. *)
Definition raftFirstShutdown : list Lifecycle.label :=
  [ Lifecycle.HttpReturns; Lifecycle.SerfStarted; Lifecycle.Interrupt;
    Lifecycle.RaftShutdownInvoked; Lifecycle.RaftShutdownReturns None;
    Lifecycle.SerfShutdownInvoked; Lifecycle.SerfShutdownReturns None;
    Lifecycle.SerfShutdownChClosed; Lifecycle.MonitorReturns None;
    Lifecycle.WaitReturns ].

(** The same shutdown with the serf cleanup task scheduled first. *)
Definition serfFirstShutdown : list Lifecycle.label :=
  [ Lifecycle.HttpReturns; Lifecycle.SerfStarted; Lifecycle.Interrupt;
    Lifecycle.SerfShutdownInvoked; Lifecycle.SerfShutdownReturns None;
    Lifecycle.RaftShutdownInvoked; Lifecycle.RaftShutdownReturns None;
    Lifecycle.SerfShutdownChClosed; Lifecycle.MonitorReturns None;
    Lifecycle.WaitReturns ].

(** The serf agent fails to start; after the task's [can()] and before it
    returns the error of Start, the serf cleanup task returns the error of
    Shutdown. *)
Definition startFailsShutdownFailsFirst : list Lifecycle.label :=
  [ Lifecycle.HttpReturns;
    Lifecycle.SerfStartFails (Server.EngineError "serf start failed");
    Lifecycle.SerfShutdownInvoked;
    Lifecycle.SerfShutdownReturns (Some (Server.EngineError "serf shutdown failed"));
    Lifecycle.SerfStartErrorReturned (Server.EngineError "serf start failed");
    Lifecycle.RaftShutdownInvoked; Lifecycle.RaftShutdownReturns None;
    Lifecycle.SignalTaskSeesDone; Lifecycle.MonitorReturns None;
    Lifecycle.WaitReturns ].

(** A codec that reads a body holding the digit of its value and writes
    the key of an event and the leader of a response. *)
Definition digitCodec : Http.jsonCodec :=
  {| Http.decodeValue := fun b =>
       if String.eqb b "7" then inl 7%Z else inr Http.DecodeError;
     Http.encodeEvent := fun e => Http.Type_ e +:+ " " +:+ Http.Key e;
     Http.encodeResponse := fun r => Http.resp_IsLeader r |}.

Definition healthyRaft : Http.raftNode :=
  {| Http.applyFuture := fun _ _ => None;
     Http.addVoterFuture := fun _ _ _ _ => None;
     Http.leaderAddr := "10.0.0.1:9000" |}.

Definition emptyNode : Http.node :=
  {| Http.raft := healthyRaft; Http.fsm_stateValue := ∅ |}.

Definition getFoo : Http.Request :=
  {| Http.Method := Http.MethodGet; Http.URL_Path := "/key/foo";
     Http.Header := ∅; Http.Body := EmptyString |}.

Definition postFoo : Http.Request :=
  {| Http.Method := Http.MethodPost; Http.URL_Path := "/key/foo";
     Http.Header := ∅; Http.Body := "7" |}.

(** A join request that carries no Peer-Address header. *)
Definition joinNoPeer : Http.Request :=
  {| Http.Method := Http.MethodPost; Http.URL_Path := "/join";
     Http.Header := ∅; Http.Body := EmptyString |}.

Definition joinPeer : Http.Request :=
  {| Http.Method := Http.MethodPost; Http.URL_Path := "/join";
     Http.Header := {[ "Peer-Address" := ["10.0.0.2:9000"] ]};
     Http.Body := EmptyString |}.

End Fixtures.

(** ** The constructor of the server *)

Module Construct.

Record Config := {
  SerfDataDir : string;
  RaftDataDir : string;
  HTTPBindAddress : string;
  HTTPBindPort : Z;
  IsSerfSeed : bool;
  SerfJoinAddrs : list string
}.

(** An error, possibly wrapped: [fmt.Errorf("context: %w", err)]. *)
Inductive error :=
| Cause (msg : string)
| Wrap (context : string) (cause : error).

(** What the operating system and the two agent packages answer. *)
Record world := {
  os_MkdirAll : string -> Z -> option error;
  serfagent_New : Config -> option error;
  multiraft_New : Config -> option error
}.

Inductive action :=
| MkdirAll (path : string) (perm : Z)
| SerfAgentNew (config : Config)
| RaftAgentNew (config : Config)
| RegisterEventHandler.

Definition C := Eff unit action.

Section constructor.
Context (w : world).
Local Open Scope eff_scope.

Definition mkdirAll (path : string) (perm : Z) : C (option error) :=
  fun s => (os_MkdirAll w path perm, s, [MkdirAll path perm]).

Definition newSerfAgent (config : Config) : C (option error) :=
  fun s => (serfagent_New w config, s, [SerfAgentNew config]).

Definition newRaftAgent (config : Config) : C (option error) :=
  fun s => (multiraft_New w config, s, [RaftAgentNew config]).

(** [New]: the data directories are made with mode 0700 (448); the server
    it returns starts with the store [NewMetadata()] gives, and registers
    itself with the serf agent as the last step. *)
Definition New (config : Config) : C (Server.server + error) :=
  let* err := mkdirAll (SerfDataDir config) 448 in
  match err with
  | Some e => ret (inr (Wrap "failed to make serf data dir" e))
  | None =>
      let* err := newSerfAgent config in
      match err with
      | Some e => ret (inr (Wrap "failed to create serf agent" e))
      | None =>
          let* err := mkdirAll (RaftDataDir config) 448 in
          match err with
          | Some e => ret (inr (Wrap "failed to make raft data dir" e))
          | None =>
              let* err := newRaftAgent config in
              match err with
              | Some e => ret (inr (Wrap "failed to create raft agent" e))
              | None =>
                  emit RegisterEventHandler ;;;
                  ret (inl Server.NewServer)
              end
          end
      end
  end.

End constructor.

(** The steps [New] takes when nothing fails. *)
Definition allSteps (config : Config) : list action :=
  [ MkdirAll (SerfDataDir config) 448; SerfAgentNew config;
    MkdirAll (RaftDataDir config) 448; RaftAgentNew config;
    RegisterEventHandler ].

Definition isRegister (a : action) : bool :=
  match a with RegisterEventHandler => true | _ => false end.

(** A fallible step: what is done, what it answered, and the message its
    error is wrapped in. *)
Record fallible := {
  stepAction : action;
  stepAnswer : option error;
  stepContext : string
}.

(** The four fallible steps of [New], with the answers of the world. *)
Definition fallibleSteps (w : world) (config : Config) : list fallible :=
  [ {| stepAction := MkdirAll (SerfDataDir config) 448;
       stepAnswer := os_MkdirAll w (SerfDataDir config) 448;
       stepContext := "failed to make serf data dir" |};
    {| stepAction := SerfAgentNew config;
       stepAnswer := serfagent_New w config;
       stepContext := "failed to create serf agent" |};
    {| stepAction := MkdirAll (RaftDataDir config) 448;
       stepAnswer := os_MkdirAll w (RaftDataDir config) 448;
       stepContext := "failed to make raft data dir" |};
    {| stepAction := RaftAgentNew config;
       stepAnswer := multiraft_New w config;
       stepContext := "failed to create raft agent" |} ].

(** Steps taken in order up to and including the first that fails, and the
    wrapped error of that step when there is one. *)
Fixpoint untilFirstFailure (steps : list fallible) : list action * option error :=
  match steps with
  | [] => ([], None)
  | st :: rest =>
      match stepAnswer st with
      | Some e => ([stepAction st], Some (Wrap (stepContext st) e))
      | None =>
          (stepAction st :: fst (untilFirstFailure rest), snd (untilFirstFailure rest))
      end
  end.

End Construct.

(** ** Observations on schedules, effects and responses *)

Module Observe.

(** The error a step hands to the errgroup, if any. *)
Definition labelError (l : Lifecycle.label) : option Server.error :=
  match l with
  | Lifecycle.MonitorReturns e => e
  | Lifecycle.SerfStartErrorReturned e => Some e
  | Lifecycle.SerfShutdownReturns e => e
  | Lifecycle.RaftShutdownReturns e => e
  | _ => None
  end.

(** The first error of a schedule. *)
Fixpoint firstError (tr : list Lifecycle.label) : option Server.error :=
  match tr with
  | [] => None
  | l :: tr' =>
      match labelError l with
      | Some e => Some e
      | None => firstError tr'
      end
  end.

(** The steps that cancel the shared scope before the wait is over: the
    three that call [can()], and every task that returns an error. *)
Definition cancels (l : Lifecycle.label) : bool :=
  match l with
  | Lifecycle.Interrupt | Lifecycle.SerfStartFails _ | Lifecycle.SerfShutdownChClosed => true
  | _ => match labelError l with Some _ => true | None => false end
  end.

Definition cleanup_awaits (c : Lifecycle.cleanup) : bool :=
  match c with Lifecycle.AwaitDone => true | _ => false end.

(** Once the wait is over every task has returned. *)
Definition settled (s : Lifecycle.orch) : Prop :=
  Lifecycle.waitReturned s = true -> Lifecycle.allReturned s = true.

(** A serf cleanup task that has moved on has seen the scope cancelled. *)
Definition cleanup_saw_cancel (s : Lifecycle.orch) : Prop :=
  Lifecycle.serfCleanup s <> Lifecycle.AwaitDone -> Lifecycle.cancelled s = true.

Definition count {A} (p : A -> bool) (xs : list A) : nat := length (List.filter p xs).

Definition isPeerJoinedLine (e : Server.effect) : bool :=
  match e with
  | Server.LogInfo msg => String.eqb msg "Peer joined Raft"
  | _ => false
  end.

Definition isAddVoter (e : Server.effect) : bool :=
  match e with Server.CallAddVoter _ _ => true | _ => false end.

Definition isApply (e : Server.effect) : bool :=
  match e with Server.CallApply _ => true | _ => false end.

(** A request whose method is neither POST nor GET. *)
Definition otherMethod (r : Http.Request) : bool :=
  negb (String.eqb (Http.Method r) Http.MethodPost)
  && negb (String.eqb (Http.Method r) Http.MethodGet).

End Observe.

(** * Properties *)

(** ** The monad *)

Section eff_lemmas.
Context {S E : Type}.

Lemma issued_bind {A B} (c : Eff S E A) (k : A -> Eff S E B) (s : S) :
  issued (bind c k s) = issued (c s) ++ issued (k (result (c s)) (final (c s))).
Proof.
  unfold bind, issued, result, final.
  destruct (c s) as [[a s1] t1]; simpl.
  destruct (k a s1) as [[b s2] t2]; reflexivity.
Qed.

Lemma final_bind {A B} (c : Eff S E A) (k : A -> Eff S E B) (s : S) :
  final (bind c k s) = final (k (result (c s)) (final (c s))).
Proof.
  unfold bind, result, final.
  destruct (c s) as [[a s1] t1]; simpl.
  destruct (k a s1) as [[b s2] t2]; reflexivity.
Qed.

Lemma issued_forRange_cons {A} (x : A) (xs : list A) (body : A -> Eff S E unit) (s : S) :
  issued (forRange (x :: xs) body s)
  = issued (body x s) ++ issued (forRange xs body (final (body x s))).
Proof. exact (issued_bind (body x) (fun _ => forRange xs body) s). Qed.

Lemma final_forRange_cons {A} (x : A) (xs : list A) (body : A -> Eff S E unit) (s : S) :
  final (forRange (x :: xs) body s) = final (forRange xs body (final (body x s))).
Proof. exact (final_bind (body x) (fun _ => forRange xs body) s). Qed.

End eff_lemmas.

(** ** The membership handler *)

Section server_lemmas.
Import Server.
Context (raft : raftAgent).

(** What one iteration of the join loop does, spelled out. *)
Lemma joinMember_unfold (m : Member) (n : server) :
  joinMember raft m n =
  let '(md, (nd, err)) := metadata_Add m (metadata n) in
  let b := isLeaderAt raft (leaderReads n) in
  (tt, {| metadata := md; leaderReads := S (leaderReads n) |},
   match err with Some _ => [LogError "Error processing metadata"] | None => [] end
   ++ CallIsLeader b ::
      (if b then
         CallAddVoter (Id nd) (RaftAddr nd) ::
         match addVoterResult raft (Id nd) (RaftAddr nd) with
         | Some _ => [LogError "Error joining peer to Raft"]
         | None => []
         end ++ [LogInfo "Peer joined Raft"]
       else [LogInfo "Not the raft leader, skipping join"])).
Proof.
  unfold joinMember, bind, Add, IsLeader, AddVoter, whenErr, logError, logInfo, emit, ret.
  destruct (metadata_Add m (metadata n)) as [md [nd err]]; simpl.
  destruct err; simpl;
    destruct (isLeaderAt raft (leaderReads n)); simpl; try reflexivity;
    destruct (addVoterResult raft (Id nd) (RaftAddr nd)); reflexivity.
Qed.

Lemma metadata_Add_accepted (m : Member) (md : gmap string nodedata) :
  accepted m ->
  metadata_Add m md =
  (<[Name m := {| id := Name m; gossipAddress := Addr m;
                  consensusAddress := (voterOf m).2; status := Alive |}]> md,
   ({| id := Name m; gossipAddress := Addr m;
       consensusAddress := (voterOf m).2; status := Alive |}, None)).
Proof.
  intros [addr Ha]. unfold metadata_Add, voterOf. rewrite Ha. reflexivity.
Qed.

Lemma metadata_Add_rejected (m : Member) (md : gmap string nodedata) :
  ~ accepted m ->
  metadata_Add m md = (md, (zero_nodedata, Some (MalformedMemberError (Name m)))).
Proof.
  intros Hna. unfold metadata_Add.
  destruct (Tags m !! raftAddrTag) eqn:Ht; [|reflexivity].
  exfalso. apply Hna. exists s. exact Ht.
Qed.

Lemma addVoterCalls_app (t1 t2 : list effect) :
  addVoterCalls (t1 ++ t2) = addVoterCalls t1 ++ addVoterCalls t2.
Proof. unfold addVoterCalls. apply omap_app. Qed.

(** The AddVoter calls of one iteration: none when the read says follower,
    one for the record Add returned when it says leader. *)
Lemma joinMember_addVoterCalls (m : Member) (n : server) :
  addVoterCalls (issued (joinMember raft m n)) =
  if isLeaderAt raft (leaderReads n)
  then [(Id (metadata_Add m (metadata n)).2.1, RaftAddr (metadata_Add m (metadata n)).2.1)]
  else [].
Proof.
  rewrite joinMember_unfold.
  destruct (metadata_Add m (metadata n)) as [md [nd err]]; simpl.
  unfold issued; simpl. rewrite addVoterCalls_app.
  destruct err, (isLeaderAt raft (leaderReads n)); simpl; try reflexivity;
    destruct (addVoterResult raft (Id nd) (RaftAddr nd)); reflexivity.
Qed.

Lemma joinMember_metadata (m : Member) (n : server) :
  metadata (final (joinMember raft m n)) = (metadata_Add m (metadata n)).1.
Proof.
  rewrite joinMember_unfold.
  destruct (metadata_Add m (metadata n)) as [md [nd err]]; reflexivity.
Qed.

(** A key that holds a record named after it keeps one through any
    iteration. *)
Lemma metadata_Add_holds (k : string) (m : Member) (md : gmap string nodedata) :
  holds k md -> holds k (metadata_Add m md).1.
Proof.
  intros [nd [Hl Hid]]. unfold metadata_Add.
  destruct (Tags m !! raftAddrTag) as [addr|]; simpl; [|exists nd; auto].
  destruct (decide (Name m = k)) as [->|Hne].
  - eexists. split; [apply lookup_insert_eq|reflexivity].
  - exists nd. split; [|exact Hid]. unfold Lookup in *.
    rewrite lookup_insert_ne; auto.
Qed.

Lemma forRange_holds (k : string) (ms : list Member) (n : server) :
  holds k (metadata n) ->
  holds k (metadata (final (forRange ms (joinMember raft) n))).
Proof.
  revert n. induction ms as [|m ms IH]; intros n Hk; [exact Hk|].
  rewrite final_forRange_cons. apply IH.
  rewrite joinMember_metadata. apply metadata_Add_holds, Hk.
Qed.

Lemma forRange_records (ms : list Member) (n : server) (m : Member) :
  m ∈ ms -> accepted m ->
  holds (Name m) (metadata (final (forRange ms (joinMember raft) n))).
Proof.
  revert n. induction ms as [|m' ms IH]; intros n Hin Hacc.
  - inversion Hin.
  - rewrite final_forRange_cons.
    apply elem_of_cons in Hin as [->|Hin].
    + apply forRange_holds. rewrite joinMember_metadata.
      rewrite (metadata_Add_accepted _ _ Hacc). simpl.
      eexists. split; [apply lookup_insert_eq|reflexivity].
    + apply IH; assumption.
Qed.

Lemma leaderChecks_app (t1 t2 : list effect) :
  leaderChecks (t1 ++ t2) = leaderChecks t1 ++ leaderChecks t2.
Proof. unfold leaderChecks. apply omap_app. Qed.

(** IsLeader is read once in every iteration, whatever Add returned. *)
Lemma joinMember_leaderChecks (m : Member) (n : server) :
  leaderChecks (issued (joinMember raft m n)) = [isLeaderAt raft (leaderReads n)].
Proof.
  rewrite joinMember_unfold.
  destruct (metadata_Add m (metadata n)) as [md [nd err]]; simpl.
  unfold issued; simpl. rewrite leaderChecks_app.
  destruct err, (isLeaderAt raft (leaderReads n)); simpl; try reflexivity;
    destruct (addVoterResult raft (Id nd) (RaftAddr nd)); reflexivity.
Qed.

(** The reads of the loop are the read of the first iteration and those of
    the rest of the loop. *)
Lemma forRange_leaderChecks_cons (m : Member) (ms : list Member) (n : server) :
  leaderChecks (issued (forRange (m :: ms) (joinMember raft) n))
  = isLeaderAt raft (leaderReads n)
    :: leaderChecks (issued (forRange ms (joinMember raft) (final (joinMember raft m n)))).
Proof.
  rewrite issued_forRange_cons, leaderChecks_app, joinMember_leaderChecks. reflexivity.
Qed.

(** No read of the loop answers true: no AddVoter call. *)
Lemma forRange_follower (ms : list Member) (n : server) :
  (forall b, b ∈ leaderChecks (issued (forRange ms (joinMember raft) n)) -> b = false) ->
  addVoterCalls (issued (forRange ms (joinMember raft) n)) = [].
Proof.
  revert n. induction ms as [|m ms IH]; intros n Hf; [reflexivity|].
  rewrite forRange_leaderChecks_cons in Hf.
  rewrite issued_forRange_cons, addVoterCalls_app, joinMember_addVoterCalls.
  rewrite (Hf _ (list_elem_of_here _ _)). simpl.
  apply IH. intros b Hb. apply Hf, list_elem_of_further, Hb.
Qed.

Lemma forRange_leaderChecks (ms : list Member) (n : server) :
  length (leaderChecks (issued (forRange ms (joinMember raft) n))) = length ms.
Proof.
  revert n. induction ms as [|m ms IH]; intros n; [reflexivity|].
  rewrite issued_forRange_cons, leaderChecks_app, length_app, IH,
    joinMember_leaderChecks.
  reflexivity.
Qed.

Lemma forRange_segments (ms : list Member) (n : server) :
  issued (forRange ms (joinMember raft) n) = concat (segments raft ms n).
Proof.
  revert n. induction ms as [|m ms IH]; intros n; [reflexivity|].
  rewrite issued_forRange_cons, IH. reflexivity.
Qed.

(** Every read of the loop answers true: one AddVoter call in the iteration
    of each accepted member. *)
Lemma segments_leader (ms : list Member) (n : server) :
  (forall b, b ∈ leaderChecks (issued (forRange ms (joinMember raft) n)) -> b = true) ->
  Forall2 (fun m seg => accepted m -> addVoterCalls seg = [voterOf m]) ms (segments raft ms n).
Proof.
  revert n. induction ms as [|m ms IH]; intros n Hl; simpl; constructor.
  - rewrite forRange_leaderChecks_cons in Hl.
    intros Hacc. rewrite joinMember_addVoterCalls, (Hl _ (list_elem_of_here _ _)).
    rewrite (metadata_Add_accepted _ _ Hacc). reflexivity.
  - apply IH. intros b Hb. rewrite forRange_leaderChecks_cons in Hl.
    apply Hl, list_elem_of_further, Hb.
Qed.

End server_lemmas.

Lemma HandleEvent_join_unfold (raft : Server.raftAgent) (ms : list Server.Member) (n : Server.server) :
  Server.HandleEvent raft (Server.MemberEvent Server.EventMemberJoin ms) n =
  bind (Server.logInfo "Server Serf Handler: Member Join")
       (fun _ => forRange ms (Server.joinMember raft)) n.
Proof. reflexivity. Qed.

(** A member the store rejects is logged, and the iteration goes on: it
    reads IsLeader and, on a leader, calls AddVoter with the record Add
    returned beside the error. *)
Lemma joinMember_rejected (raft : Server.raftAgent) (m : Server.Member) (n : Server.server) :
  ~ Server.accepted m ->
  exists rest,
    issued (Server.joinMember raft m n) =
    Server.LogError "Error processing metadata"
    :: Server.CallIsLeader (Server.isLeaderAt raft (Server.leaderReads n)) :: rest
    /\ (Server.isLeaderAt raft (Server.leaderReads n) = true ->
        Server.addVoterCalls rest = [(EmptyString, EmptyString)]).
Proof.
  intros Hna. rewrite joinMember_unfold, (metadata_Add_rejected _ _ Hna). simpl.
  unfold issued; simpl.
  destruct (Server.isLeaderAt raft (Server.leaderReads n)); eexists; split;
    try reflexivity; try discriminate.
  intros _. cbn.
  destruct (Server.addVoterResult raft _ _); reflexivity.
Qed.

(** C1 (as amended). For a Join event: every member the Metadata Store
    accepts is recorded under its name, whoever leads; when every IsLeader
    read made during the event answers false no AddVoter call is issued;
    when every read made during the event answers true, the iteration of
    each accepted member issues exactly one AddVoter call, with that
    member's id and consensus address.  What the agent answers before or
    after the event does not matter. *)
Theorem HandleEvent_join_gate
    (raft : Server.raftAgent) (members : list Server.Member) (n : Server.server) :
  let r := Server.HandleEvent raft (Server.MemberEvent Server.EventMemberJoin members) n in
  (forall m, m ∈ members -> Server.accepted m ->
             Server.holds (Server.Name m) (Server.metadata (final r)))
  /\ ((forall b, b ∈ Server.leaderChecks (issued r) -> b = false) ->
      Server.addVoterCalls (issued r) = [])
  /\ ((forall b, b ∈ Server.leaderChecks (issued r) -> b = true) ->
      issued r = Server.LogInfo "Server Serf Handler: Member Join"
                 :: concat (Server.segments raft members n)
      /\ Forall2 (fun m seg => Server.accepted m ->
                               Server.addVoterCalls seg = [Server.voterOf m])
                 members (Server.segments raft members n)).
Proof.
  intros r. subst r. rewrite HandleEvent_join_unfold.
  rewrite issued_bind, final_bind. simpl.
  split; [|split].
  - intros m Hin Hacc. apply forRange_records; assumption.
  - intros Hf. apply forRange_follower, Hf.
  - intros Hl. split.
    + rewrite forRange_segments. reflexivity.
    + apply segments_leader, Hl.
Qed.

(** The gate on a leader, and on an agent that led for its first five reads
    and is asked for the sixth and seventh time during the event. *)
Lemma HandleEvent_join_gate_witness :
  Server.holds "n2"
    (Server.metadata (final (Server.HandleEvent Fixtures.leaderAgent
       (Server.MemberEvent Server.EventMemberJoin [Fixtures.n2; Fixtures.n3])
       Server.NewServer)))
  /\ Server.addVoterCalls (issued (Server.HandleEvent Fixtures.lapsedAgent
       (Server.MemberEvent Server.EventMemberJoin [Fixtures.n2; Fixtures.n3])
       Fixtures.serverAfterFiveReads)) = []
  /\ Forall2 (fun m seg => Server.accepted m ->
                           Server.addVoterCalls seg = [Server.voterOf m])
       [Fixtures.n2; Fixtures.n3]
       (Server.segments Fixtures.leaderAgent [Fixtures.n2; Fixtures.n3] Server.NewServer).
Proof.
  pose proof (HandleEvent_join_gate Fixtures.leaderAgent [Fixtures.n2; Fixtures.n3]
                Server.NewServer) as Hleader.
  pose proof (HandleEvent_join_gate Fixtures.lapsedAgent [Fixtures.n2; Fixtures.n3]
                Fixtures.serverAfterFiveReads) as Hlapsed.
  cbv zeta in Hleader, Hlapsed.
  destruct Hleader as (Hrec & _ & Hone). destruct Hlapsed as (_ & Hnone & _).
  split; [|split].
  - apply (Hrec Fixtures.n2).
    + apply list_elem_of_here.
    + exists "10.0.0.2:9000". reflexivity.
  - apply Hnone. intros b Hb.
    repeat (apply elem_of_cons in Hb as [->|Hb]; [reflexivity|]).
    apply elem_of_nil in Hb. contradiction.
  - apply Hone. intros b Hb.
    repeat (apply elem_of_cons in Hb as [->|Hb]; [reflexivity|]).
    apply elem_of_nil in Hb. contradiction.
Defined.

(** C1 as stated fails: on a follower, a Join event whose member lacks the
    consensus-address tag leaves that member out of the Metadata Store. *)
Lemma HandleEvent_join_malformed_not_recorded :
  (forall k, Server.isLeaderAt Fixtures.followerAgent k = false)
  /\ Fixtures.n3 ∈ [Fixtures.n2; Fixtures.n3]
  /\ Server.Lookup (Server.Name Fixtures.n3)
       (Server.metadata (final (Server.HandleEvent Fixtures.followerAgent
          (Server.MemberEvent Server.EventMemberJoin [Fixtures.n2; Fixtures.n3])
          Server.NewServer))) = None.
Proof.
  split; [intros k; reflexivity|]. split.
  - apply list_elem_of_further, list_elem_of_here.
  - vm_compute. reflexivity.
Qed.

(** C4. On a leader, a Join event whose first member is rejected by the
    Metadata Store: the error is logged, and the same iteration still reads
    IsLeader and calls AddVoter, with the empty id and address; the next
    member is then processed. *)
Theorem HandleEvent_join_malformed_not_skipped :
  issued (Server.HandleEvent Fixtures.leaderAgent
            (Server.MemberEvent Server.EventMemberJoin [Fixtures.n3; Fixtures.n2])
            Server.NewServer)
  = [ Server.LogInfo "Server Serf Handler: Member Join";
      Server.LogError "Error processing metadata";
      Server.CallIsLeader true;
      Server.CallAddVoter EmptyString EmptyString;
      Server.LogInfo "Peer joined Raft";
      Server.CallIsLeader true;
      Server.CallAddVoter "n2" "10.0.0.2:9000";
      Server.LogInfo "Peer joined Raft" ].
Proof. vm_compute. reflexivity. Qed.

(** C8. A Leave, Failed or Reap event issues one log line and nothing
    else: no AddVoter, no Apply, and the server's state is unchanged. *)
Theorem HandleEvent_leave_failed_reap
    (raft : Server.raftAgent) (ty : Server.EventType)
    (members : list Server.Member) (n : Server.server) :
  ty ∈ [Server.EventMemberLeave; Server.EventMemberFailed; Server.EventMemberReap] ->
  let r := Server.HandleEvent raft (Server.MemberEvent ty members) n in
  (exists msg, issued r = [Server.LogInfo msg])
  /\ List.filter Server.isEngineCall (issued r) = []
  /\ Server.addVoterCalls (issued r) = []
  /\ final r = n.
Proof.
  intros Hty r. subst r.
  repeat (apply elem_of_cons in Hty as [->|Hty]); [| | |inversion Hty];
    (split; [eexists; reflexivity|]); repeat split.
Qed.

(** A Failed event on a leader reaches the consensus engine with nothing. *)
Lemma HandleEvent_leave_failed_reap_witness :
  List.filter Server.isEngineCall
    (issued (Server.HandleEvent Fixtures.leaderAgent
       (Server.MemberEvent Server.EventMemberFailed [Fixtures.n2]) Server.NewServer)) = [].
Proof.
  pose proof (HandleEvent_leave_failed_reap Fixtures.leaderAgent Server.EventMemberFailed
                [Fixtures.n2] Server.NewServer) as H.
  cbv zeta in H.
  destruct H as (_ & Hnone & _); [|exact Hnone].
  apply list_elem_of_further, list_elem_of_here.
Defined.

(** ** The write path *)

Lemma hasByte_colon_cons (c : ascii) (s : string) :
  hasByte ":" (String c s) = false -> c <> ":"%char /\ hasByte ":" s = false.
Proof.
  cbn [hasByte]. destruct (Ascii.eqb ":" c) eqn:Hc; [discriminate|].
  intros Hs. split; [|exact Hs].
  intros ->. rewrite Ascii.eqb_refl in Hc. discriminate.
Qed.

Lemma append_nil_l (s : string) : EmptyString +:+ s = s.
Proof. reflexivity. Qed.

Lemma append_cons_l (c : ascii) (a s : string) : String c a +:+ s = String c (a +:+ s).
Proof. reflexivity. Qed.

(** Two colon-free heads followed by a colon split a string the same way. *)
Lemma colon_join_inj (a b x y : string) :
  hasByte ":" a = false -> hasByte ":" b = false ->
  a +:+ ":" +:+ x = b +:+ ":" +:+ y -> a = b /\ x = y.
Proof.
  revert b. induction a as [|c a IH]; intros [|d b] Ha Hb Heq;
    rewrite ?append_cons_l, ?append_nil_l in Heq.
  - injection Heq as ->. split; reflexivity.
  - injection Heq as Hc _. apply hasByte_colon_cons in Hb as [Hd _]. congruence.
  - injection Heq as Hc _. apply hasByte_colon_cons in Ha as [Hd _]. congruence.
  - injection Heq as -> Heq.
    apply hasByte_colon_cons in Ha as [_ Ha]. apply hasByte_colon_cons in Hb as [_ Hb].
    destruct (IH b Ha Hb Heq) as [-> ->]. split; reflexivity.
Qed.

(** C7 (as amended). SetKeyVal submits one entry of two string fields: the
    key is table, row key and column joined with colons, and the value.
    Two writes whose tables and row keys hold no colon submit the same
    entry only if they agree on table, row key, column and value. *)
Theorem SetKeyVal_entry
    (raft : Server.raftAgent)
    (t1 k1 c1 v1 t2 k2 c2 v2 : string) (n1 n2 : Server.server) :
  issued (Server.SetKeyVal raft t1 k1 c1 v1 n1)
  = [Server.CallApply {| Server.Key := t1 +:+ ":" +:+ k1 +:+ ":" +:+ c1; Server.Val := v1 |}]
  /\ result (Server.SetKeyVal raft t1 k1 c1 v1 n1)
     = Server.applyResult raft
         {| Server.Key := t1 +:+ ":" +:+ k1 +:+ ":" +:+ c1; Server.Val := v1 |}
  /\ (hasByte ":" t1 = false -> hasByte ":" k1 = false ->
      hasByte ":" t2 = false -> hasByte ":" k2 = false ->
      issued (Server.SetKeyVal raft t1 k1 c1 v1 n1)
      = issued (Server.SetKeyVal raft t2 k2 c2 v2 n2) ->
      (t1, k1, c1, v1) = (t2, k2, c2, v2)).
Proof.
  split; [reflexivity|]. split; [reflexivity|].
  intros Ht1 Hk1 Ht2 Hk2 Heq.
  unfold Server.SetKeyVal, Server.Apply, issued in Heq. simpl in Heq.
  injection Heq as Hkey ->.
  apply colon_join_inj in Hkey as [-> Hkey]; try assumption.
  apply colon_join_inj in Hkey as [-> ->]; try assumption.
  reflexivity.
Qed.

(** The entry of one write, and two writes to different rows. *)
Lemma SetKeyVal_entry_witness :
  issued (Server.SetKeyVal Fixtures.leaderAgent "users" "u1" "email" "a@x.com" Server.NewServer)
  = [Server.CallApply {| Server.Key := "users:u1:email"; Server.Val := "a@x.com" |}]
  /\ issued (Server.SetKeyVal Fixtures.leaderAgent "users" "u1" "email" "a@x.com" Server.NewServer)
     <> issued (Server.SetKeyVal Fixtures.leaderAgent "users" "u2" "email" "b@x.com" Server.NewServer).
Proof.
  destruct (SetKeyVal_entry Fixtures.leaderAgent "users" "u1" "email" "a@x.com"
              "users" "u2" "email" "b@x.com" Server.NewServer Server.NewServer)
    as (Hentry & _ & Hinj).
  split; [exact Hentry|].
  intros Heq. apply Hinj in Heq; [discriminate| reflexivity ..].
Defined.

(** C7 as stated fails: two writes to different (table, row, column)
    triples submit the same entry, with the same key. *)
Lemma SetKeyVal_key_collision :
  ("a:b", "c", "d") <> ("a", "b:c", "d")
  /\ issued (Server.SetKeyVal Fixtures.leaderAgent "a:b" "c" "d" "v" Server.NewServer)
     = issued (Server.SetKeyVal Fixtures.leaderAgent "a" "b:c" "d" "v" Server.NewServer).
Proof. split; [discriminate|reflexivity]. Qed.

(** ** The lifecycle orchestrator *)

Section lifecycle_lemmas.
Import Lifecycle.

Lemma goReturn_tasks (e : option Server.error) (s : orch) :
  monitor (goReturn e s) = monitor s /\ http (goReturn e s) = http s
  /\ serfRun (goReturn e s) = serfRun s /\ signalTask (goReturn e s) = signalTask s
  /\ serfCleanup (goReturn e s) = serfCleanup s
  /\ raftCleanup (goReturn e s) = raftCleanup s
  /\ waitReturned (goReturn e s) = waitReturned s.
Proof. unfold goReturn. destruct e, (firstErr s); repeat split. Qed.

Lemma serfCleanup_goReturn (e : option Server.error) (s : orch) :
  serfCleanup (goReturn e s) = serfCleanup s.
Proof. apply goReturn_tasks. Qed.

Lemma raftCleanup_goReturn (e : option Server.error) (s : orch) :
  raftCleanup (goReturn e s) = raftCleanup s.
Proof. apply goReturn_tasks. Qed.

(** Unfolds one enabled step into the state it leads to. *)
Ltac step_cases H :=
  unfold step in H;
  repeat match type of H with
         | context [match ?x with _ => _ end] => destruct x eqn:?; try discriminate H
         end;
  try (injection H as <-).

(** A cancelled scope stays cancelled. *)
Lemma step_cancelled_stable (s s' : orch) (l : label) :
  step s l = Some s' -> cancelled s = true -> cancelled s' = true.
Proof.
  intros Hs Hc. destruct l; step_cases Hs; unfold goReturn; simpl;
    repeat match goal with
           | |- context [match ?x with _ => _ end] => destruct x
           end;
    simpl; auto.
Qed.

Lemma allReturned_inv (s : orch) :
  allReturned s = true ->
  monitor s = Returned /\ http s = Returned /\ serfRun s = SerfRunReturned
  /\ signalTask s = Returned /\ serfCleanup s = CleanupReturned
  /\ raftCleanup s = CleanupReturned.
Proof.
  unfold allReturned.
  destruct (monitor s), (http s), (serfRun s), (signalTask s), (serfCleanup s),
    (raftCleanup s); try discriminate; repeat split.
Qed.

Lemma step_serfCleanup (s s' : orch) (l : label) :
  step s l = Some s' -> isSerfReturn l = false ->
  serfCleanup s <> CleanupReturned -> serfCleanup s' <> CleanupReturned.
Proof.
  intros Hs Hl Hne. destruct l; try discriminate Hl; step_cases Hs;
    rewrite ?serfCleanup_goReturn; simpl; try congruence;
    destruct (firstErr s); simpl; congruence.
Qed.

Lemma step_raftCleanup (s s' : orch) (l : label) :
  step s l = Some s' -> isRaftReturn l = false ->
  raftCleanup s <> CleanupReturned -> raftCleanup s' <> CleanupReturned.
Proof.
  intros Hs Hl Hne. destruct l; try discriminate Hl; step_cases Hs;
    rewrite ?raftCleanup_goReturn; simpl; try congruence;
    destruct (firstErr s); simpl; congruence.
Qed.

Lemma step_wait_needs_all (s s' : orch) :
  step s WaitReturns = Some s' -> allReturned s = true.
Proof.
  unfold step. destruct (allReturned s); [reflexivity|discriminate].
Qed.

(** The wait is over only after serf's Shutdown has returned. *)
Lemma run_serf_return_before_wait (tr : list label) (s0 s : orch) :
  run tr s0 = Some s -> serfCleanup s0 <> CleanupReturned ->
  precedes isSerfReturn isWaitReturn tr = true.
Proof.
  revert s0. induction tr as [|l tr IH]; intros s0 Hrun Hne; [reflexivity|].
  simpl in Hrun. destruct (step s0 l) as [s1|] eqn:Hs; [|discriminate].
  simpl. destruct (isSerfReturn l) eqn:Hl; [reflexivity|].
  destruct (isWaitReturn l) eqn:Hw.
  - destruct l; try discriminate Hw.
    apply step_wait_needs_all, allReturned_inv in Hs. tauto.
  - apply (IH s1 Hrun). eapply step_serfCleanup; eassumption.
Qed.

(** The wait is over only after raft's Shutdown has returned. *)
Lemma run_raft_return_before_wait (tr : list label) (s0 s : orch) :
  run tr s0 = Some s -> raftCleanup s0 <> CleanupReturned ->
  precedes isRaftReturn isWaitReturn tr = true.
Proof.
  revert s0. induction tr as [|l tr IH]; intros s0 Hrun Hne; [reflexivity|].
  simpl in Hrun. destruct (step s0 l) as [s1|] eqn:Hs; [|discriminate].
  simpl. destruct (isRaftReturn l) eqn:Hl; [reflexivity|].
  destruct (isWaitReturn l) eqn:Hw.
  - destruct l; try discriminate Hw.
    apply step_wait_needs_all, allReturned_inv in Hs. tauto.
  - apply (IH s1 Hrun). eapply step_raftCleanup; eassumption.
Qed.

Lemma run_app (pre post : list label) (s : orch) :
  run (pre ++ post) s =
  match run pre s with
  | Some s1 => run post s1
  | None => None
  end.
Proof.
  revert s. induction pre as [|l pre IH]; intros s; simpl; [reflexivity|].
  destruct (step s l); [apply IH|reflexivity].
Qed.

(** A Shutdown call happens in a cancelled scope. *)
Lemma run_invoke_after_cancel (pre post : list label) (l : label) (s0 s : orch) :
  l = SerfShutdownInvoked \/ l = RaftShutdownInvoked ->
  run (pre ++ l :: post) s0 = Some s ->
  exists s1, run pre s0 = Some s1 /\ cancelled s1 = true.
Proof.
  intros Hl Hrun. rewrite run_app in Hrun.
  destruct (run pre s0) as [s1|]; [|discriminate].
  exists s1. split; [reflexivity|].
  simpl in Hrun. destruct (step s1 l) as [s2|] eqn:Hs; [|discriminate].
  destruct Hl as [-> | ->]; unfold step in Hs.
  - destruct (serfCleanup s1), (cancelled s1); try discriminate; reflexivity.
  - destruct (raftCleanup s1), (cancelled s1); try discriminate; reflexivity.
Qed.

(** Once the scope is cancelled, each cleanup task may call Shutdown,
    whatever the other one has done. *)
Lemma cleanup_enabled (s : orch) :
  cancelled s = true ->
  (serfCleanup s = AwaitDone -> is_Some (step s SerfShutdownInvoked))
  /\ (raftCleanup s = AwaitDone -> is_Some (step s RaftShutdownInvoked)).
Proof.
  intros Hc. split; intros Ha; unfold step; rewrite Ha, Hc; eexists; reflexivity.
Qed.

End lifecycle_lemmas.

(** C3 (as amended). In every schedule of Serve's tasks: Serve's wait
    returns only after the gossip engine's Shutdown and the consensus
    engine's Shutdown have both returned; either Shutdown is called only
    once the shared scope is cancelled; and in a cancelled scope each of
    the two calls is enabled independently of the other, so that no order
    between them is enforced. *)
Theorem Serve_shutdown (tr : list Lifecycle.label) (s : Lifecycle.orch) :
  Lifecycle.run tr Lifecycle.init = Some s ->
  Lifecycle.precedes Lifecycle.isSerfReturn Lifecycle.isWaitReturn tr = true
  /\ Lifecycle.precedes Lifecycle.isRaftReturn Lifecycle.isWaitReturn tr = true
  /\ (forall pre post l,
        l = Lifecycle.SerfShutdownInvoked \/ l = Lifecycle.RaftShutdownInvoked ->
        tr = pre ++ l :: post ->
        exists s1, Lifecycle.run pre Lifecycle.init = Some s1
                   /\ Lifecycle.cancelled s1 = true)
  /\ (Lifecycle.cancelled s = true ->
      (Lifecycle.serfCleanup s = Lifecycle.AwaitDone ->
       is_Some (Lifecycle.step s Lifecycle.SerfShutdownInvoked))
      /\ (Lifecycle.raftCleanup s = Lifecycle.AwaitDone ->
          is_Some (Lifecycle.step s Lifecycle.RaftShutdownInvoked))).
Proof.
  intros Hrun. repeat split.
  - eapply run_serf_return_before_wait; [exact Hrun|discriminate].
  - eapply run_raft_return_before_wait; [exact Hrun|discriminate].
  - intros pre post l Hl ->. eapply run_invoke_after_cancel; eassumption.
  - apply cleanup_enabled; assumption.
  - apply cleanup_enabled; assumption.
Qed.

(** A clean shutdown in which the serf cleanup task runs first. *)
Lemma Serve_shutdown_witness :
  Lifecycle.precedes Lifecycle.isSerfReturn Lifecycle.isWaitReturn
    Fixtures.serfFirstShutdown = true
  /\ Lifecycle.precedes Lifecycle.isRaftReturn Lifecycle.isWaitReturn
       Fixtures.serfFirstShutdown = true.
Proof.
  edestruct (Serve_shutdown Fixtures.serfFirstShutdown) as (Hserf & Hraft & _).
  - reflexivity.
  - split; assumption.
Defined.

(** C3 as stated fails: after an interrupt, a schedule that runs to a clean
    return of Serve calls the consensus engine's Shutdown, and sees it
    return, before the gossip engine's Shutdown is called. *)
Lemma Serve_raft_shutdown_first :
  (exists s, Lifecycle.run Fixtures.raftFirstShutdown Lifecycle.init = Some s
             /\ Lifecycle.Serve_result s = Some None)
  /\ Lifecycle.precedes Lifecycle.isSerfInvoke Lifecycle.isRaftInvoke
       Fixtures.raftFirstShutdown = false
  /\ Lifecycle.precedes Lifecycle.isRaftReturn Lifecycle.isSerfInvoke
       Fixtures.raftFirstShutdown = true.
Proof.
  split; [eexists; split; reflexivity|]. split; reflexivity.
Qed.

(** ** The HTTP front end *)

Section http_lemmas.
Import Http.
Context (json : jsonCodec) (nd : node).

Lemma prefix_cons (a b : ascii) (s1 s2 : string) :
  String.prefix (String a s1) (String b s2)
  = if ascii_dec a b then String.prefix s1 s2 else false.
Proof. reflexivity. Qed.

(** A join path is not a key path. *)
Lemma join_path_not_key (p : string) :
  strings_HasPrefix p "/join" = true -> strings_HasPrefix p "/key" = false.
Proof.
  unfold strings_HasPrefix.
  destruct p as [|c0 p]; [discriminate|].
  rewrite !prefix_cons.
  destruct (ascii_dec "/" c0) as [<-|]; [|discriminate].
  destruct p as [|c1 p]; [discriminate|].
  rewrite !prefix_cons.
  destruct (ascii_dec "j" c1) as [<-|]; [|discriminate].
  intros _. reflexivity.
Qed.

(** GET of a key the table does not hold: the 200 written on entry is the
    status the client gets; the 404 that follows is superfluous, and only
    its body is sent. *)
Lemma ServeHTTP_get_absent (r : Request) :
  strings_HasPrefix (URL_Path r) "/key" = true ->
  Method r = MethodGet ->
  fsm_stateValue nd !! removeKeyPath (URL_Path r) = None ->
  serve json nd r =
  (tt, {| wroteHeader := true; status := StatusOK;
          body := "{" +:+ dq +:+ "status" +:+ dq +:+ ": " +:+ dq
                  +:+ "404 not found" +:+ dq +:+ "}" |}, []).
Proof.
  intros Hp Hm Hk. unfold serve, ServeHTTP, handleRequest. rewrite Hp, Hm. simpl.
  unfold handleKeyGet, bind. simpl. rewrite Hk. reflexivity.
Qed.

(** GET of a key the table holds: the value and the leader, read from the
    node itself; nothing goes through consensus. *)
Lemma ServeHTTP_get_present (r : Request) (v : Z) :
  strings_HasPrefix (URL_Path r) "/key" = true ->
  Method r = MethodGet ->
  fsm_stateValue nd !! removeKeyPath (URL_Path r) = Some v ->
  serve json nd r =
  (tt, {| wroteHeader := true; status := StatusOK;
          body := encodeResponse json {| resp_Value := v;
                                         resp_IsLeader := leaderAddr (raft nd);
                                         resp_Nodes := EmptyString |} |},
   [RaftLeader])
  /\ consensusCalls (issued (serve json nd r)) = [].
Proof.
  intros Hp Hm Hk. unfold serve, ServeHTTP, handleRequest. rewrite Hp, Hm. simpl.
  unfold handleKeyGet, bind. simpl. rewrite Hk. split; reflexivity.
Qed.

(** POST on a key path, spelled out by the outcome of the Apply future. *)
Lemma ServeHTTP_post (r : Request) (v : Z) :
  strings_HasPrefix (URL_Path r) "/key" = true ->
  Method r = MethodPost ->
  decodeValue json (Body r) = inl v ->
  serve json nd r =
  let cmd := encodeEvent json {| Type_ := "set"; Key := removeKeyPath (URL_Path r);
                                 Value := v |} in
  match applyFuture (raft nd) cmd (5 * Second) with
  | None => (tt, {| wroteHeader := true; status := StatusOK; body := EmptyString |},
             [RaftApply cmd (5 * Second)])
  | Some _ =>
      (tt, {| wroteHeader := true; status := StatusInternalServerError;
              body := "{" +:+ dq +:+ "status" +:+ dq +:+ ": " +:+ dq
                      +:+ "internal server error" +:+ dq +:+ "}" |},
       [RaftApply cmd (5 * Second)])
  end.
Proof.
  intros Hp Hm Hd. unfold serve, ServeHTTP, handleRequest. rewrite Hp, Hm. simpl.
  unfold handleKeyPost. rewrite Hd. unfold Marshal_event, bind, Apply. simpl.
  destruct (applyFuture (raft nd) _ _); reflexivity.
Qed.

(** A request on the join path: the AddVoter call is made with whatever the
    Peer-Address header holds, the empty string included. *)
Lemma ServeHTTP_join_calls (r : Request) :
  strings_HasPrefix (URL_Path r) "/join" = true ->
  consensusCalls (issued (serve json nd r)) =
  [RaftAddVoter (Header_Get (Header r) "Peer-Address")
                (Header_Get (Header r) "Peer-Address") 0 0].
Proof.
  intros Hp. unfold serve, ServeHTTP. rewrite (join_path_not_key _ Hp), Hp.
  unfold handleJoin, bind, AddVoter. simpl.
  destruct (String.eqb _ _); simpl;
    destruct (addVoterFuture (raft nd) _ _ _ _); reflexivity.
Qed.

Lemma ServeHTTP_join_status (r : Request) :
  strings_HasPrefix (URL_Path r) "/join" = true ->
  responseStatus (final (serve json nd r)) =
  if String.eqb (Header_Get (Header r) "Peer-Address") EmptyString then StatusBadRequest
  else match addVoterFuture (raft nd) (Header_Get (Header r) "Peer-Address")
               (Header_Get (Header r) "Peer-Address") 0 0 with
       | Some _ => StatusInternalServerError
       | None => StatusOK
       end.
Proof.
  intros Hp. unfold serve, ServeHTTP. rewrite (join_path_not_key _ Hp), Hp.
  unfold handleJoin, bind, AddVoter. simpl.
  destruct (String.eqb _ _); simpl;
    destruct (addVoterFuture (raft nd) _ _ _ _); reflexivity.
Qed.

End http_lemmas.

(** C5. GET /key/foo on a node whose table is empty: the client receives
    status 200, with the not-found text as body; the claim says 404. *)
Theorem ServeHTTP_get_absent_status :
  Http.serve Fixtures.digitCodec Fixtures.emptyNode Fixtures.getFoo =
  (tt, {| Http.wroteHeader := true; Http.status := 200%Z;
          Http.body := "{" +:+ dq +:+ "status" +:+ dq +:+ ": " +:+ dq
                       +:+ "404 not found" +:+ dq +:+ "}" |}, [])
  /\ Http.responseStatus
       (final (Http.serve Fixtures.digitCodec Fixtures.emptyNode Fixtures.getFoo))
     <> Http.StatusNotFound.
Proof. split; [vm_compute; reflexivity|vm_compute; discriminate]. Qed.

(** C6. A POST on a key path whose body decodes submits the event to Apply
    once, with a timeout of five seconds, and does nothing else; the
    client receives 200 exactly when the Apply future yields no error, and
    500 when it yields one. *)
Theorem ServeHTTP_post_apply_once
    (json : Http.jsonCodec) (nd : Http.node) (r : Http.Request) (v : Z) :
  strings_HasPrefix (Http.URL_Path r) "/key" = true ->
  Http.Method r = Http.MethodPost ->
  Http.decodeValue json (Http.Body r) = inl v ->
  let cmd := Http.encodeEvent json
               {| Http.Type_ := "set"; Http.Key := Http.removeKeyPath (Http.URL_Path r);
                  Http.Value := v |} in
  let out := Http.serve json nd r in
  issued out = [Http.RaftApply cmd (5 * Http.Second)%Z]
  /\ (Http.responseStatus (final out) = 200%Z
      <-> Http.applyFuture (Http.raft nd) cmd (5 * Http.Second)%Z = None)
  /\ (Http.applyFuture (Http.raft nd) cmd (5 * Http.Second)%Z <> None ->
      Http.responseStatus (final out) = 500%Z).
Proof.
  intros Hp Hm Hd cmd out. subst out.
  rewrite (ServeHTTP_post json nd r v Hp Hm Hd). cbv zeta. fold cmd.
  destruct (Http.applyFuture (Http.raft nd) cmd (5 * Http.Second)%Z) as [err|].
  - split; [reflexivity|]. split; [split; discriminate|]. intros _. reflexivity.
  - split; [reflexivity|]. split; [split; reflexivity|]. intros Hne. congruence.
Qed.

(** POST /key/foo with value 7 on a healthy node. *)
Lemma ServeHTTP_post_apply_once_witness :
  issued (Http.serve Fixtures.digitCodec Fixtures.emptyNode Fixtures.postFoo)
  = [Http.RaftApply "set /foo" 5000000000%Z]
  /\ Http.responseStatus
       (final (Http.serve Fixtures.digitCodec Fixtures.emptyNode Fixtures.postFoo)) = 200%Z.
Proof.
  pose proof (ServeHTTP_post_apply_once Fixtures.digitCodec Fixtures.emptyNode
                Fixtures.postFoo 7 eq_refl eq_refl eq_refl) as H.
  cbv zeta in H. destruct H as (Hcalls & Hstatus & _).
  split; [exact Hcalls|]. apply Hstatus. reflexivity.
Defined.

(** C9. POST /join without a Peer-Address header: the client receives 400,
    and AddVoter is called all the same, with the empty id and address. *)
Theorem ServeHTTP_join_no_peer :
  Http.serve Fixtures.digitCodec Fixtures.emptyNode Fixtures.joinNoPeer =
  (tt, {| Http.wroteHeader := true; Http.status := 400%Z; Http.body := EmptyString |},
   [ Http.LogError "Peer-Address not set on request";
     Http.RaftAddVoter EmptyString EmptyString 0 0;
     Http.LogInfo "Peer joined Raft" ]).
Proof. vm_compute. reflexivity. Qed.

(** C10. On the join path with a Peer-Address header that is not empty,
    the one AddVoter call takes the header value as the server id and as
    the server address; the client receives 200 when the call succeeds and
    500 when it fails. *)
Theorem ServeHTTP_join_voter
    (json : Http.jsonCodec) (nd : Http.node) (r : Http.Request) :
  strings_HasPrefix (Http.URL_Path r) "/join" = true ->
  Http.Header_Get (Http.Header r) "Peer-Address" <> EmptyString ->
  let peer := Http.Header_Get (Http.Header r) "Peer-Address" in
  let out := Http.serve json nd r in
  Http.consensusCalls (issued out) = [Http.RaftAddVoter peer peer 0 0]
  /\ Http.responseStatus (final out) =
     match Http.addVoterFuture (Http.raft nd) peer peer 0 0 with
     | Some _ => 500%Z
     | None => 200%Z
     end.
Proof.
  intros Hp Hne peer out. subst out peer. split.
  - apply ServeHTTP_join_calls, Hp.
  - rewrite (ServeHTTP_join_status json nd r Hp).
    destruct (String.eqb _ _) eqn:He; [|reflexivity].
    apply String.eqb_eq in He. contradiction.
Qed.

(** POST /join with Peer-Address 10.0.0.2:9000. *)
Lemma ServeHTTP_join_voter_witness :
  Http.consensusCalls
    (issued (Http.serve Fixtures.digitCodec Fixtures.emptyNode Fixtures.joinPeer))
  = [Http.RaftAddVoter "10.0.0.2:9000" "10.0.0.2:9000" 0 0].
Proof.
  pose proof (ServeHTTP_join_voter Fixtures.digitCodec Fixtures.emptyNode
                Fixtures.joinPeer eq_refl) as H.
  cbv zeta in H. destruct H as (Hcalls & _); [discriminate|exact Hcalls].
Defined.

(** * Further properties *)

(** ** The membership handler, all events and mixed leadership *)

Section server_more.
Import Server.
Context (raft : raftAgent).




Lemma count_app {A} (p : A -> bool) (xs ys : list A) :
  Observe.count p (xs ++ ys) = (Observe.count p xs + Observe.count p ys)%nat.
Proof. unfold Observe.count. rewrite List.filter_app, length_app. reflexivity. Qed.

Lemma count_cons {A} (p : A -> bool) (x : A) (xs : list A) :
  Observe.count p (x :: xs) = ((if p x then 1 else 0) + Observe.count p xs)%nat.
Proof. unfold Observe.count. simpl. destruct (p x); reflexivity. Qed.

Lemma joinMember_counts (m : Member) (n : server) :
  Observe.count Observe.isApply (issued (joinMember raft m n)) = 0%nat
  /\ Observe.count Observe.isPeerJoinedLine (issued (joinMember raft m n))
     = Observe.count Observe.isAddVoter (issued (joinMember raft m n)).
Proof.
  rewrite joinMember_unfold.
  destruct (metadata_Add m (metadata n)) as [md [nd err]].
  unfold issued; simpl.
  destruct err, (isLeaderAt raft (leaderReads n)); simpl;
    try (split; reflexivity);
    destruct (addVoterResult raft (Id nd) (RaftAddr nd)); split; reflexivity.
Qed.

Lemma forRange_counts (ms : list Member) (n : server) :
  Observe.count Observe.isApply (issued (forRange ms (joinMember raft) n)) = 0%nat
  /\ Observe.count Observe.isPeerJoinedLine (issued (forRange ms (joinMember raft) n))
     = Observe.count Observe.isAddVoter (issued (forRange ms (joinMember raft) n)).
Proof.
  revert n. induction ms as [|m ms IH]; intros n; [split; reflexivity|].
  rewrite issued_forRange_cons, !count_app.
  destruct (joinMember_counts m n) as [-> ->].
  destruct (IH (final (joinMember raft m n))) as [-> ->].
  split; reflexivity.
Qed.

End server_more.

Lemma forRange_metadata_agent (raft1 raft2 : Server.raftAgent)
    (ms : list Server.Member) (n1 n2 : Server.server) :
  Server.metadata n1 = Server.metadata n2 ->
  Server.metadata (final (forRange ms (Server.joinMember raft1) n1))
  = Server.metadata (final (forRange ms (Server.joinMember raft2) n2)).
Proof.
  revert n1 n2. induction ms as [|m ms IH]; intros n1 n2 Hmd; [exact Hmd|].
  rewrite !final_forRange_cons. apply IH.
  rewrite !joinMember_metadata, Hmd. reflexivity.
Qed.

Lemma HandleEvent_join_run (raft : Server.raftAgent) (ms : list Server.Member)
    (n : Server.server) :
  final (Server.HandleEvent raft (Server.MemberEvent Server.EventMemberJoin ms) n)
  = final (forRange ms (Server.joinMember raft) n)
  /\ issued (Server.HandleEvent raft (Server.MemberEvent Server.EventMemberJoin ms) n)
     = Server.LogInfo "Server Serf Handler: Member Join"
       :: issued (forRange ms (Server.joinMember raft) n).
Proof.
  rewrite HandleEvent_join_unfold, final_bind, issued_bind. split; reflexivity.
Qed.

(** X1. An event that is not a Join does nothing but write one Info line:
    the server is left as it was, IsLeader is not read, and nothing is
    sent to the raft agent.  This covers Update, user events and queries
    as well as Leave, Failed and Reap. *)
Theorem HandleEvent_not_join
    (raft : Server.raftAgent) (e : Server.Event) (n : Server.server) :
  Server.Event_EventType e <> Server.EventMemberJoin ->
  final (Server.HandleEvent raft e n) = n
  /\ (exists msg, issued (Server.HandleEvent raft e n) = [Server.LogInfo msg])
  /\ Server.leaderChecks (issued (Server.HandleEvent raft e n)) = []
  /\ List.filter Server.isEngineCall (issued (Server.HandleEvent raft e n)) = [].
Proof.
  intros Hty. destruct e as [ty ms|name|name]; [destruct ty|..];
    try (exfalso; apply Hty; reflexivity);
    (split; [reflexivity|]); (split; [eexists; reflexivity|]); split; reflexivity.
Qed.

(** An Update event, a user event and a query are only logged. *)
Lemma HandleEvent_not_join_witness :
  issued (Server.HandleEvent Fixtures.leaderAgent
            (Server.MemberEvent Server.EventMemberUpdate [Fixtures.n2]) Server.NewServer)
  = [Server.LogInfo "Server Serf Handler: Unhandled type"]
  /\ issued (Server.HandleEvent Fixtures.leaderAgent (Server.UserEvent "deploy")
               Server.NewServer)
     = [Server.LogInfo "Server Serf Handler: Unhandled type"].
Proof.
  split.
  - destruct (HandleEvent_not_join Fixtures.leaderAgent
                (Server.MemberEvent Server.EventMemberUpdate [Fixtures.n2])
                Server.NewServer) as (_ & _ & _ & _); [discriminate|reflexivity].
  - destruct (HandleEvent_not_join Fixtures.leaderAgent (Server.UserEvent "deploy")
                Server.NewServer) as (_ & _ & _ & _); [discriminate|reflexivity].
Defined.


(** X3. What a Join event writes to the Metadata Store does not depend on
    the raft agent: a leader and a follower that start from the same
    store end with the same store. *)
Theorem HandleEvent_store_agent_independent
    (raft1 raft2 : Server.raftAgent) (e : Server.Event) (n1 n2 : Server.server) :
  Server.metadata n1 = Server.metadata n2 ->
  Server.metadata (final (Server.HandleEvent raft1 e n1))
  = Server.metadata (final (Server.HandleEvent raft2 e n2)).
Proof.
  intros Hmd. destruct e as [ty ms|name|name]; [destruct ty|..]; try exact Hmd.
  rewrite !(proj1 (HandleEvent_join_run _ _ _)).
  apply forRange_metadata_agent, Hmd.
Qed.

(** The same Join event on a leader and on a follower. *)
Lemma HandleEvent_store_agent_independent_witness :
  Server.metadata (final (Server.HandleEvent Fixtures.leaderAgent
     (Server.MemberEvent Server.EventMemberJoin [Fixtures.n2; Fixtures.n3]) Server.NewServer))
  = Server.metadata (final (Server.HandleEvent Fixtures.followerAgent
     (Server.MemberEvent Server.EventMemberJoin [Fixtures.n2; Fixtures.n3]) Server.NewServer)).
Proof.
  apply (HandleEvent_store_agent_independent Fixtures.leaderAgent Fixtures.followerAgent).
  reflexivity.
Defined.

(** X5. In a Join event the handler never calls Apply, and it writes the
    line Peer joined Raft once per AddVoter call, whether the call
    succeeded or failed. *)
Theorem HandleEvent_join_log_lines
    (raft : Server.raftAgent) (members : list Server.Member) (n : Server.server) :
  let t := issued (Server.HandleEvent raft
                     (Server.MemberEvent Server.EventMemberJoin members) n) in
  Observe.count Observe.isApply t = 0%nat
  /\ Observe.count Observe.isPeerJoinedLine t = Observe.count Observe.isAddVoter t.
Proof.
  intros t. subst t. rewrite (proj2 (HandleEvent_join_run raft members n)).
  rewrite !count_cons.
  destruct (forRange_counts raft members n) as [-> ->].
  split; reflexivity.
Qed.

(** ** The constructor *)

(** Closes the case of [New] in which the step just taken failed. *)
Ltac failed_step :=
  split; [split; reflexivity|];
  split; (split; [intros [srv Hs]; discriminate Hs|]);
  [ intros Hall;
    repeat match goal with
           | H : Forall _ (_ :: _) |- _ => apply Forall_cons in H as [? H]
           end;
    simpl in *; congruence
  | intros Hx; unfold Observe.count in Hx; simpl in Hx; discriminate Hx ].

(** X6. New takes its four fallible steps in one order (serf data
    directory, serf agent, raft data directory, raft agent) and stops at
    the first that fails: the steps it has taken are those up to and
    including the first failing one, and it returns that step's error
    wrapped in the message of that step.  When none fails it registers
    the event handler as its last step and returns the server; so the
    handler is registered exactly when New returns a server, which is
    exactly when all four steps succeed. *)
Theorem New_steps (w : Construct.world) (config : Construct.Config) :
  let r := Construct.New w config tt in
  let taken := fst (Construct.untilFirstFailure (Construct.fallibleSteps w config)) in
  let failure := snd (Construct.untilFirstFailure (Construct.fallibleSteps w config)) in
  match failure with
  | Some err => issued r = taken /\ result r = inr err
  | None => issued r = taken ++ [Construct.RegisterEventHandler]
            /\ result r = inl Server.NewServer
  end
  /\ ((exists srv, result r = inl srv)
      <-> Forall (fun st => Construct.stepAnswer st = None)
                 (Construct.fallibleSteps w config))
  /\ ((exists srv, result r = inl srv)
      <-> Observe.count Construct.isRegister (issued r) = 1%nat).
Proof.
  intros r taken failure. subst r taken failure.
  unfold Construct.New, bind, Construct.mkdirAll, Construct.newSerfAgent,
    Construct.newRaftAgent, emit, ret, issued, result, Construct.fallibleSteps.
  simpl.
  destruct (Construct.os_MkdirAll w (Construct.SerfDataDir config) 448) as [e1|];
    [simpl; failed_step|].
  destruct (Construct.serfagent_New w config) as [e2|]; [simpl; failed_step|].
  destruct (Construct.os_MkdirAll w (Construct.RaftDataDir config) 448) as [e3|];
    [simpl; failed_step|].
  destruct (Construct.multiraft_New w config) as [e4|]; [simpl; failed_step|].
  simpl. split; [split; reflexivity|].
  split; (split; [intros _|intros _; eexists; reflexivity]).
  - repeat constructor.
  - reflexivity.
Qed.

(** ** The lifecycle orchestrator *)

Section lifecycle_more.
Import Lifecycle.

Ltac step_inv H :=
  unfold step in H;
  repeat match type of H with
         | context [match ?x with _ => _ end] => destruct x eqn:?; try discriminate H
         end;
  try (injection H as <-).

Lemma goReturn_firstErr (e : option Server.error) (s : orch) :
  firstErr (goReturn e s) =
  match firstErr s with
  | Some e0 => Some e0
  | None => e
  end.
Proof.
  unfold goReturn. destruct e, (firstErr s) eqn:He; simpl; rewrite ?He; reflexivity.
Qed.

Lemma step_firstErr (s s' : orch) (l : label) :
  step s l = Some s' ->
  firstErr s' = match firstErr s with
                | Some e0 => Some e0
                | None => Observe.labelError l
                end.
Proof.
  intros Hs. destruct l; step_inv Hs;
    repeat match goal with
           | |- context [match firstErr ?x with _ => _ end] =>
               destruct (firstErr x) eqn:?
           end;
    simpl; try congruence;
    rewrite goReturn_firstErr; simpl;
    match goal with H : firstErr _ = _ |- _ => rewrite H end; reflexivity.
Qed.

Lemma run_firstErr (tr : list label) (s0 s : orch) :
  run tr s0 = Some s ->
  firstErr s = match firstErr s0 with
               | Some e0 => Some e0
               | None => Observe.firstError tr
               end.
Proof.
  revert s0. induction tr as [|l tr IH]; intros s0 Hrun; simpl in Hrun.
  - injection Hrun as <-. destruct (firstErr s0); reflexivity.
  - destruct (step s0 l) as [s1|] eqn:Hs; [|discriminate].
    rewrite (IH s1 Hrun), (step_firstErr _ _ _ Hs). simpl.
    destruct (firstErr s0); [reflexivity|].
    destruct (Observe.labelError l); reflexivity.
Qed.

Lemma returned_no_step (s : orch) (l : label) :
  waitReturned s = true -> allReturned s = true -> step s l = None.
Proof.
  intros Hw Ha. apply allReturned_inv in Ha as (H1 & H2 & H3 & H4 & H5 & H6).
  destruct l; unfold step; rewrite ?H1, ?H2, ?H3, ?H4, ?H5, ?H6, ?Hw; try reflexivity.
  rewrite andb_false_r. reflexivity.
Qed.

Lemma step_waitReturned (s s' : orch) (l : label) :
  step s l = Some s' -> isWaitReturn l = false -> waitReturned s' = waitReturned s.
Proof.
  intros Hs Hl. destruct l; try discriminate Hl; step_inv Hs;
    rewrite ?(proj2 (proj2 (proj2 (proj2 (proj2 (proj2 (goReturn_tasks _ _)))))));
    try reflexivity;
    destruct (firstErr s); reflexivity.
Qed.

Lemma step_settled (s s' : orch) (l : label) :
  step s l = Some s' -> Observe.settled s -> Observe.settled s'.
Proof.
  intros Hs Hset. destruct (waitReturned s) eqn:Hw.
  - rewrite (returned_no_step s l Hw (Hset Hw)) in Hs. discriminate.
  - intros Hw'. destruct (isWaitReturn l) eqn:Hl.
    + destruct l; try discriminate Hl.
      pose proof (step_wait_needs_all _ _ Hs) as Ha.
      unfold step in Hs. rewrite Ha, Hw in Hs. simpl in Hs. injection Hs as <-.
      exact Ha.
    + rewrite (step_waitReturned _ _ _ Hs Hl) in Hw'. congruence.
Qed.

Lemma run_settled (tr : list label) (s0 s : orch) :
  run tr s0 = Some s -> Observe.settled s0 -> Observe.settled s.
Proof.
  revert s0. induction tr as [|l tr IH]; intros s0 Hrun Hset; simpl in Hrun.
  - injection Hrun as <-. exact Hset.
  - destruct (step s0 l) as [s1|] eqn:Hs; [|discriminate].
    apply (IH s1 Hrun). eapply step_settled; eassumption.
Qed.

Lemma step_serf_invoke_once (s s' : orch) (l : label) :
  step s l = Some s' ->
  ((if isSerfInvoke l then 1 else 0)
   + (if Observe.cleanup_awaits (serfCleanup s') then 1 else 0)
   <= (if Observe.cleanup_awaits (serfCleanup s) then 1 else 0))%nat.
Proof.
  intros Hs. destruct l; step_inv Hs; rewrite ?serfCleanup_goReturn; simpl;
    try (destruct (firstErr s); simpl);
    rewrite ?Heqc; simpl; try lia;
    destruct (serfCleanup s); simpl; lia.
Qed.

Lemma step_raft_invoke_once (s s' : orch) (l : label) :
  step s l = Some s' ->
  ((if isRaftInvoke l then 1 else 0)
   + (if Observe.cleanup_awaits (raftCleanup s') then 1 else 0)
   <= (if Observe.cleanup_awaits (raftCleanup s) then 1 else 0))%nat.
Proof.
  intros Hs. destruct l; step_inv Hs; rewrite ?raftCleanup_goReturn; simpl;
    try (destruct (firstErr s); simpl);
    rewrite ?Heqc; simpl; try lia;
    destruct (raftCleanup s); simpl; lia.
Qed.

Lemma run_serf_invoke_once (tr : list label) (s0 s : orch) :
  run tr s0 = Some s ->
  (Observe.count isSerfInvoke tr <= (if Observe.cleanup_awaits (serfCleanup s0) then 1 else 0))%nat.
Proof.
  revert s0. induction tr as [|l tr IH]; intros s0 Hrun; simpl in Hrun.
  - unfold Observe.count. simpl. lia.
  - destruct (step s0 l) as [s1|] eqn:Hs; [|discriminate].
    rewrite count_cons. pose proof (IH s1 Hrun). pose proof (step_serf_invoke_once _ _ _ Hs).
    lia.
Qed.

Lemma run_raft_invoke_once (tr : list label) (s0 s : orch) :
  run tr s0 = Some s ->
  (Observe.count isRaftInvoke tr <= (if Observe.cleanup_awaits (raftCleanup s0) then 1 else 0))%nat.
Proof.
  revert s0. induction tr as [|l tr IH]; intros s0 Hrun; simpl in Hrun.
  - unfold Observe.count. simpl. lia.
  - destruct (step s0 l) as [s1|] eqn:Hs; [|discriminate].
    rewrite count_cons. pose proof (IH s1 Hrun). pose proof (step_raft_invoke_once _ _ _ Hs).
    lia.
Qed.

Lemma step_cleanup_saw_cancel (s s' : orch) (l : label) :
  step s l = Some s' -> Observe.cleanup_saw_cancel s -> Observe.cleanup_saw_cancel s'.
Proof.
  intros Hs Hinv Hne. unfold Observe.cleanup_saw_cancel in Hinv.
  destruct (cancelled s) eqn:Hc; [eapply step_cancelled_stable; eassumption|].
  assert (Ha : serfCleanup s = AwaitDone).
  { destruct (serfCleanup s); [reflexivity| |];
      (assert (Hf : false = true) by (apply Hinv; discriminate)); discriminate Hf. }
  exfalso. apply Hne. clear Hne Hinv.
  destruct l; step_inv Hs; rewrite ?serfCleanup_goReturn; simpl;
    try (destruct (firstErr s); simpl); congruence.
Qed.

Lemma step_uncancelled (s s' : orch) (l : label) :
  step s l = Some s' -> cancelled s = false -> Observe.cancels l = false ->
  isWaitReturn l = false -> cancelled s' = false.
Proof.
  intros Hs Hc Hl Hw.
  destruct l as [e| | | | | | | | |e| |e|]; try destruct e;
    try discriminate Hl; try discriminate Hw;
    step_inv Hs; simpl; congruence.
Qed.

(** The wait is over only after some step has cancelled the scope. *)
Lemma run_cancel_before_wait (tr : list label) (s0 s : orch) :
  run tr s0 = Some s -> cancelled s0 = false -> Observe.cleanup_saw_cancel s0 ->
  precedes Observe.cancels isWaitReturn tr = true.
Proof.
  revert s0. induction tr as [|l tr IH]; intros s0 Hrun Hc Hinv; [reflexivity|].
  simpl in Hrun. destruct (step s0 l) as [s1|] eqn:Hs; [|discriminate].
  simpl. destruct (Observe.cancels l) eqn:Hl; [reflexivity|].
  destruct (isWaitReturn l) eqn:Hw.
  - destruct l; try discriminate Hw.
    apply step_wait_needs_all, allReturned_inv in Hs as (_ & _ & _ & _ & H5 & _).
    assert (Hne : serfCleanup s0 <> AwaitDone) by congruence.
    apply Hinv in Hne. congruence.
  - apply (IH s1 Hrun).
    + eapply step_uncancelled; eassumption.
    + eapply step_cleanup_saw_cancel; eassumption.
Qed.

End lifecycle_more.

(** X7. When Serve's wait is over, Serve returns the first error that any
    task returned, in the order the tasks returned, and nil when no task
    returned one.  The error of a serf agent that fails to start counts
    from the moment its task returns it, not from the [can()] before:
    another task's error returned in between wins. *)
Theorem Serve_returns_first_error (tr : list Lifecycle.label) (s : Lifecycle.orch) :
  Lifecycle.run tr Lifecycle.init = Some s ->
  Lifecycle.waitReturned s = true ->
  Lifecycle.Serve_result s = Some (Observe.firstError tr).
Proof.
  intros Hrun Hw. unfold Lifecycle.Serve_result. rewrite Hw.
  rewrite (run_firstErr tr Lifecycle.init s Hrun). reflexivity.
Qed.

(** A clean shutdown returns nil; a failed Start overtaken by a failed
    Shutdown returns the error of Shutdown. *)
Lemma Serve_returns_first_error_witness :
  (exists s, Lifecycle.run Fixtures.serfFirstShutdown Lifecycle.init = Some s
             /\ Lifecycle.Serve_result s = Some None)
  /\ (exists s, Lifecycle.run Fixtures.startFailsShutdownFailsFirst Lifecycle.init = Some s
                /\ Lifecycle.Serve_result s
                   = Some (Some (Server.EngineError "serf shutdown failed"))).
Proof.
  split; eexists; (split; [reflexivity|]).
  - apply (Serve_returns_first_error Fixtures.serfFirstShutdown); reflexivity.
  - apply (Serve_returns_first_error Fixtures.startFailsShutdownFailsFirst); reflexivity.
Defined.

(** X8. In every schedule each engine's Shutdown is called at most once,
    and once Serve's wait is over all six tasks have returned and no step
    of any task can happen any more. *)
Theorem Serve_shutdown_once (tr : list Lifecycle.label) (s : Lifecycle.orch) :
  Lifecycle.run tr Lifecycle.init = Some s ->
  (Observe.count Lifecycle.isSerfInvoke tr <= 1)%nat
  /\ (Observe.count Lifecycle.isRaftInvoke tr <= 1)%nat
  /\ (Lifecycle.waitReturned s = true ->
      Lifecycle.allReturned s = true /\ forall l, Lifecycle.step s l = None).
Proof.
  intros Hrun. split; [|split].
  - apply (run_serf_invoke_once tr Lifecycle.init s Hrun).
  - apply (run_raft_invoke_once tr Lifecycle.init s Hrun).
  - intros Hw.
    assert (Ha : Lifecycle.allReturned s = true).
    { apply (run_settled tr Lifecycle.init s Hrun); [discriminate|exact Hw]. }
    split; [exact Ha|]. intros l. apply returned_no_step; assumption.
Qed.

(** The shutdown that runs the raft cleanup first calls each Shutdown once. *)
Lemma Serve_shutdown_once_witness :
  (Observe.count Lifecycle.isSerfInvoke Fixtures.raftFirstShutdown <= 1)%nat
  /\ (Observe.count Lifecycle.isRaftInvoke Fixtures.raftFirstShutdown <= 1)%nat.
Proof.
  edestruct (Serve_shutdown_once Fixtures.raftFirstShutdown) as (Hserf & Hraft & _).
  - reflexivity.
  - split; assumption.
Defined.

(** X9. Serve does not return on its own: in every schedule its wait is
    over only after a step that cancels the shared scope, that is an
    interrupt, a serf agent that fails to start, the close of the serf
    shutdown channel, or a task that returns an error. *)
Theorem Serve_returns_only_after_cancel (tr : list Lifecycle.label) (s : Lifecycle.orch) :
  Lifecycle.run tr Lifecycle.init = Some s ->
  Lifecycle.precedes Observe.cancels Lifecycle.isWaitReturn tr = true.
Proof.
  intros Hrun. eapply run_cancel_before_wait; [exact Hrun|reflexivity|].
  intros Hne. exfalso. apply Hne. reflexivity.
Qed.

(** In the clean shutdown the interrupt comes before the return. *)
Lemma Serve_returns_only_after_cancel_witness :
  Lifecycle.precedes Observe.cancels Lifecycle.isWaitReturn Fixtures.serfFirstShutdown = true.
Proof.
  eapply (Serve_returns_only_after_cancel Fixtures.serfFirstShutdown). reflexivity.
Defined.

(** ** The HTTP front end, all requests *)

Section http_more.
Import Http.
Context (json : jsonCodec) (nd : node).

(** Every way a request can go through the router, by the tests the
    handlers make. *)
Ltac serve_cases r :=
  unfold serve, ServeHTTP, handleRequest, handleKeyPost, handleKeyGet, handleJoin,
    Marshal_event, Marshal_response, statusNotFound, statusInternalError,
    Write, WriteHeader, Apply, AddVoter, Leader, logError, logInfo, bind, emit, ret;
  destruct (strings_HasPrefix (URL_Path r) "/key") eqn:Hkey;
  [ destruct (String.eqb (Method r) MethodPost) eqn:Hpost;
    [ destruct (decodeValue json (Body r)) as [v|derr] eqn:Hdec;
      [ destruct (applyFuture (raft nd) _ _) eqn:Happly | ]
    | destruct (String.eqb (Method r) MethodGet) eqn:Hget;
      [ destruct (fsm_stateValue nd !! removeKeyPath (URL_Path r)) eqn:Hlook | ] ]
  | destruct (strings_HasPrefix (URL_Path r) "/join") eqn:Hjoin;
    [ destruct (String.eqb (Header_Get (Header r) "Peer-Address") EmptyString) eqn:Hpeer;
      destruct (addVoterFuture (raft nd) _ _ _ _) eqn:Hadd
    | ] ];
  simpl.

Lemma serve_status_cases (r : Request) :
  wroteHeader (final (serve json nd r)) = true
  /\ (responseStatus (final (serve json nd r)) = 200%Z
      \/ responseStatus (final (serve json nd r)) = 400%Z
      \/ responseStatus (final (serve json nd r)) = 405%Z
      \/ responseStatus (final (serve json nd r)) = 500%Z).
Proof.
  serve_cases r; (split; [reflexivity|]); unfold responseStatus; simpl; auto.
Qed.

Lemma serve_consensus_count (r : Request) :
  (length (consensusCalls (issued (serve json nd r))) <= 1)%nat.
Proof. serve_cases r; unfold issued, consensusCalls; simpl; lia. Qed.

Lemma serve_apply_origin (r : Request) (cmd : string) (t : Z) :
  RaftApply cmd t ∈ issued (serve json nd r) ->
  strings_HasPrefix (URL_Path r) "/key" = true
  /\ Method r = MethodPost
  /\ exists v, decodeValue json (Body r) = inl v
               /\ cmd = encodeEvent json {| Type_ := "set";
                                            Key := removeKeyPath (URL_Path r);
                                            Value := v |}
               /\ t = (5 * Second)%Z.
Proof.
  serve_cases r; unfold issued; simpl; intros Hin;
    repeat (apply elem_of_cons in Hin as [Hin|Hin]; try discriminate Hin);
    try (apply elem_of_nil in Hin; contradiction);
    injection Hin as -> ->;
    (split; [reflexivity|]); (split; [apply String.eqb_eq; assumption|]);
    exists v; repeat split.
Qed.

Lemma serve_addVoter_origin (r : Request) (i a : string) (p t : Z) :
  RaftAddVoter i a p t ∈ issued (serve json nd r) ->
  strings_HasPrefix (URL_Path r) "/key" = false
  /\ strings_HasPrefix (URL_Path r) "/join" = true
  /\ i = Header_Get (Header r) "Peer-Address"
  /\ a = Header_Get (Header r) "Peer-Address"
  /\ p = 0%Z /\ t = 0%Z.
Proof.
  serve_cases r; unfold issued; simpl; intros Hin;
    repeat (apply elem_of_cons in Hin as [Hin|Hin]; try discriminate Hin);
    try (apply elem_of_nil in Hin; contradiction);
    injection Hin as -> -> -> ->; repeat split.
Qed.

Lemma string_drop_prefix (p s : string) :
  String.prefix p s = true -> p +:+ string_drop (String.length p) s = s.
Proof.
  revert s. induction p as [|c p IH]; intros s Hp; [reflexivity|].
  destruct s as [|d s]; [discriminate|].
  rewrite prefix_cons in Hp. destruct (ascii_dec c d) as [->|]; [|discriminate].
  rewrite append_cons_l. simpl. f_equal. apply IH, Hp.
Qed.

Lemma prefix_append (p s : string) : String.prefix p (p +:+ s) = true.
Proof.
  induction p as [|c p IH]; [destruct s; reflexivity|].
  rewrite append_cons_l, prefix_cons. destruct (ascii_dec c c); [exact IH|contradiction].
Qed.

Lemma string_drop_append (p s : string) : string_drop (String.length p) (p +:+ s) = s.
Proof. induction p as [|c p IH]; [reflexivity|]. rewrite append_cons_l. simpl. exact IH. Qed.

Lemma strings_Replace_first_head (old new rest : string) :
  strings_Replace_first (old +:+ rest) old new = new +:+ rest.
Proof.
  destruct (old +:+ rest) as [|c s] eqn:Hs;
    unfold strings_Replace_first; fold strings_Replace_first;
    rewrite <- Hs, prefix_append, string_drop_append; reflexivity.
Qed.

End http_more.

(** X10. The three ways the router turns a request down stay local to the
    node: a path that is neither a key path nor a join path gets 400, a
    key path with a method other than POST and GET gets 405, and a POST on
    a key path whose body does not decode gets 400 and one error line; in
    all three the body is empty and the raft node is not called. *)
Theorem ServeHTTP_rejections (json : Http.jsonCodec) (nd : Http.node) (r : Http.Request) :
  (strings_HasPrefix (Http.URL_Path r) "/key" = false ->
   strings_HasPrefix (Http.URL_Path r) "/join" = false ->
   Http.serve json nd r
   = (tt, {| Http.wroteHeader := true; Http.status := 400; Http.body := EmptyString |}, []))
  /\ (strings_HasPrefix (Http.URL_Path r) "/key" = true ->
      Observe.otherMethod r = true ->
      Http.serve json nd r
      = (tt, {| Http.wroteHeader := true; Http.status := 405; Http.body := EmptyString |}, []))
  /\ (strings_HasPrefix (Http.URL_Path r) "/key" = true ->
      Http.Method r = Http.MethodPost ->
      (forall v, Http.decodeValue json (Http.Body r) <> inl v) ->
      Http.serve json nd r
      = (tt, {| Http.wroteHeader := true; Http.status := 400; Http.body := EmptyString |},
         [Http.LogError "Bad request"])).
Proof.
  split; [|split].
  - intros Hk Hj. unfold Http.serve, Http.ServeHTTP. rewrite Hk, Hj. reflexivity.
  - intros Hk Hm. unfold Observe.otherMethod in Hm.
    apply andb_prop in Hm as [Hp Hg].
    apply negb_true_iff in Hp. apply negb_true_iff in Hg.
    unfold Http.serve, Http.ServeHTTP, Http.handleRequest. rewrite Hk, Hp, Hg. reflexivity.
  - intros Hk Hm Hd.
    unfold Http.serve, Http.ServeHTTP, Http.handleRequest, Http.handleKeyPost.
    rewrite Hk, Hm. simpl.
    destruct (Http.decodeValue json (Http.Body r)) as [v|e] eqn:He.
    + exfalso. apply (Hd v). reflexivity.
    + reflexivity.
Qed.

(** A path outside the router, a DELETE on a key path, and a POST whose
    body is not the digit the sample codec reads. *)
Lemma ServeHTTP_rejections_witness :
  Http.responseStatus (final (Http.serve Fixtures.digitCodec Fixtures.emptyNode
     {| Http.Method := "GET"; Http.URL_Path := "/status"; Http.Header := ∅;
        Http.Body := EmptyString |})) = 400%Z
  /\ Http.responseStatus (final (Http.serve Fixtures.digitCodec Fixtures.emptyNode
     {| Http.Method := "DELETE"; Http.URL_Path := "/key/foo"; Http.Header := ∅;
        Http.Body := EmptyString |})) = 405%Z
  /\ issued (Http.serve Fixtures.digitCodec Fixtures.emptyNode
     {| Http.Method := "POST"; Http.URL_Path := "/key/foo"; Http.Header := ∅;
        Http.Body := "seven" |}) = [Http.LogError "Bad request"].
Proof.
  split; [|split].
  - destruct (ServeHTTP_rejections Fixtures.digitCodec Fixtures.emptyNode
      {| Http.Method := "GET"; Http.URL_Path := "/status"; Http.Header := ∅;
         Http.Body := EmptyString |}) as (H & _ & _).
    rewrite H; reflexivity.
  - destruct (ServeHTTP_rejections Fixtures.digitCodec Fixtures.emptyNode
      {| Http.Method := "DELETE"; Http.URL_Path := "/key/foo"; Http.Header := ∅;
         Http.Body := EmptyString |}) as (_ & H & _).
    rewrite H; reflexivity.
  - destruct (ServeHTTP_rejections Fixtures.digitCodec Fixtures.emptyNode
      {| Http.Method := "POST"; Http.URL_Path := "/key/foo"; Http.Header := ∅;
         Http.Body := "seven" |}) as (_ & _ & H).
    rewrite H; try reflexivity. intros v. discriminate.
Defined.

(** X11. Every request is answered with an explicit status line, and the
    status the client receives is one of 200, 400, 405 and 500: no path
    through the router ends in 404. *)
Theorem ServeHTTP_statuses (json : Http.jsonCodec) (nd : Http.node) (r : Http.Request) :
  Http.wroteHeader (final (Http.serve json nd r)) = true
  /\ Http.responseStatus (final (Http.serve json nd r)) ∈ [200%Z; 400%Z; 405%Z; 500%Z]
  /\ Http.responseStatus (final (Http.serve json nd r)) <> Http.StatusNotFound.
Proof.
  destruct (serve_status_cases json nd r) as [Hw Hs].
  split; [exact Hw|].
  destruct Hs as [-> | [-> | [-> | ->]]]; (split; [set_solver|discriminate]).
Qed.

(** X12. A request makes at most one call that goes through consensus.
    An Apply comes only from a POST on a key path whose body decoded, and
    carries the encoded set event with a five-second timeout; an AddVoter
    comes only from the join path, and carries the Peer-Address header as
    id and as address, with zero index and timeout. *)
Theorem ServeHTTP_consensus_calls
    (json : Http.jsonCodec) (nd : Http.node) (r : Http.Request) :
  (length (Http.consensusCalls (issued (Http.serve json nd r))) <= 1)%nat
  /\ (forall cmd t, Http.RaftApply cmd t ∈ issued (Http.serve json nd r) ->
      strings_HasPrefix (Http.URL_Path r) "/key" = true
      /\ Http.Method r = Http.MethodPost
      /\ exists v, Http.decodeValue json (Http.Body r) = inl v
                   /\ cmd = Http.encodeEvent json
                              {| Http.Type_ := "set";
                                 Http.Key := Http.removeKeyPath (Http.URL_Path r);
                                 Http.Value := v |}
                   /\ t = (5 * Http.Second)%Z)
  /\ (forall i a p t, Http.RaftAddVoter i a p t ∈ issued (Http.serve json nd r) ->
      strings_HasPrefix (Http.URL_Path r) "/key" = false
      /\ strings_HasPrefix (Http.URL_Path r) "/join" = true
      /\ i = Http.Header_Get (Http.Header r) "Peer-Address"
      /\ a = Http.Header_Get (Http.Header r) "Peer-Address"
      /\ p = 0%Z /\ t = 0%Z).
Proof.
  split; [apply serve_consensus_count|]. split.
  - intros cmd t. apply serve_apply_origin.
  - intros i a p t. apply serve_addVoter_origin.
Qed.

(** X13. removeKeyPath undoes the key prefix: the key of the path
    [/key] followed by [k] is [k], also when [k] itself holds [/key], and
    every path the router sends to the key handlers is [/key] followed by
    its key, so that two such paths with the same key are the same path. *)
Theorem removeKeyPath_prefix (k p q : string) :
  Http.removeKeyPath ("/key" +:+ k) = k
  /\ (strings_HasPrefix p "/key" = true -> "/key" +:+ Http.removeKeyPath p = p)
  /\ (strings_HasPrefix p "/key" = true -> strings_HasPrefix q "/key" = true ->
      Http.removeKeyPath p = Http.removeKeyPath q -> p = q).
Proof.
  assert (Hback : forall s, strings_HasPrefix s "/key" = true ->
                            "/key" +:+ Http.removeKeyPath s = s).
  { intros s Hs. unfold strings_HasPrefix in Hs. unfold Http.removeKeyPath.
    destruct s as [|c s]; [discriminate|].
    unfold strings_Replace_first; fold strings_Replace_first. rewrite Hs.
    rewrite append_nil_l. apply (string_drop_prefix "/key"), Hs. }
  split; [|split].
  - unfold Http.removeKeyPath. apply strings_Replace_first_head.
  - apply Hback.
  - intros Hp Hq Heq. rewrite <- (Hback p Hp), <- (Hback q Hq), Heq. reflexivity.
Qed.

(** The key of /key/foo is /foo, and /key/foo is /key followed by it. *)
Lemma removeKeyPath_prefix_witness :
  Http.removeKeyPath "/key/foo" = "/foo"
  /\ "/key" +:+ Http.removeKeyPath "/key/foo" = "/key/foo".
Proof.
  destruct (removeKeyPath_prefix "/foo" "/key/foo" "/key/foo") as (Hk & Hback & _).
  split; [exact Hk|apply Hback; reflexivity].
Defined.

(** X14. A GET on a key path is served by the node alone: it makes no
    call through consensus and is answered 200 whether or not the key is
    there, with the marshalled value and leader when it is and the
    not-found text when it is not. *)
Theorem ServeHTTP_get_local (json : Http.jsonCodec) (nd : Http.node) (r : Http.Request) :
  strings_HasPrefix (Http.URL_Path r) "/key" = true ->
  Http.Method r = Http.MethodGet ->
  Http.consensusCalls (issued (Http.serve json nd r)) = []
  /\ Http.responseStatus (final (Http.serve json nd r)) = 200%Z
  /\ Http.body (final (Http.serve json nd r))
     = match Http.fsm_stateValue nd !! Http.removeKeyPath (Http.URL_Path r) with
       | Some v => Http.encodeResponse json
                     {| Http.resp_Value := v;
                        Http.resp_IsLeader := Http.leaderAddr (Http.raft nd);
                        Http.resp_Nodes := EmptyString |}
       | None => "{" +:+ dq +:+ "status" +:+ dq +:+ ": " +:+ dq
                 +:+ "404 not found" +:+ dq +:+ "}"
       end.
Proof.
  intros Hp Hm.
  destruct (Http.fsm_stateValue nd !! Http.removeKeyPath (Http.URL_Path r)) as [v|] eqn:Hk.
  - destruct (ServeHTTP_get_present json nd r v Hp Hm Hk) as [-> _].
    repeat split.
  - rewrite (ServeHTTP_get_absent json nd r Hp Hm Hk). repeat split.
Qed.

(** GET /key/foo on a node that holds 7 under /foo. *)
Lemma ServeHTTP_get_local_witness :
  Http.body (final (Http.serve Fixtures.digitCodec
     {| Http.raft := Fixtures.healthyRaft; Http.fsm_stateValue := {[ "/foo" := 7%Z ]} |}
     Fixtures.getFoo)) = "10.0.0.1:9000".
Proof.
  destruct (ServeHTTP_get_local Fixtures.digitCodec
     {| Http.raft := Fixtures.healthyRaft; Http.fsm_stateValue := {[ "/foo" := 7%Z ]} |}
     Fixtures.getFoo eq_refl eq_refl) as (_ & _ & Hbody).
  rewrite Hbody. reflexivity.
Defined.

(** X15. The join handler does not look at the method: every request on
    the join path makes exactly one AddVoter call with the Peer-Address
    header as id and as address.  With an empty header the answer is 400
    whatever AddVoter returns; otherwise it is 200 when AddVoter succeeds
    and 500 when it fails. *)
Theorem ServeHTTP_join_any_method
    (json : Http.jsonCodec) (nd : Http.node) (r : Http.Request) :
  strings_HasPrefix (Http.URL_Path r) "/join" = true ->
  let peer := Http.Header_Get (Http.Header r) "Peer-Address" in
  Http.consensusCalls (issued (Http.serve json nd r)) = [Http.RaftAddVoter peer peer 0 0]
  /\ (peer = EmptyString -> Http.responseStatus (final (Http.serve json nd r)) = 400%Z)
  /\ (peer <> EmptyString ->
      Http.responseStatus (final (Http.serve json nd r))
      = match Http.addVoterFuture (Http.raft nd) peer peer 0 0 with
        | Some _ => 500%Z
        | None => 200%Z
        end).
Proof.
  intros Hp peer. subst peer. split; [apply ServeHTTP_join_calls, Hp|].
  rewrite (ServeHTTP_join_status json nd r Hp).
  split.
  - intros ->. reflexivity.
  - intros Hne. destruct (String.eqb _ _) eqn:He; [|reflexivity].
    apply String.eqb_eq in He. contradiction.
Qed.

(** A GET on the join path with a peer address adds the voter. *)
Lemma ServeHTTP_join_any_method_witness :
  Http.consensusCalls (issued (Http.serve Fixtures.digitCodec Fixtures.emptyNode
     {| Http.Method := "GET"; Http.URL_Path := "/join";
        Http.Header := {[ "Peer-Address" := ["10.0.0.2:9000"] ]};
        Http.Body := EmptyString |}))
  = [Http.RaftAddVoter "10.0.0.2:9000" "10.0.0.2:9000" 0 0].
Proof.
  pose proof (ServeHTTP_join_any_method Fixtures.digitCodec Fixtures.emptyNode
     {| Http.Method := "GET"; Http.URL_Path := "/join";
        Http.Header := {[ "Peer-Address" := ["10.0.0.2:9000"] ]};
        Http.Body := EmptyString |} eq_refl) as H.
  cbv zeta in H. destruct H as (Hcalls & _). exact Hcalls.
Defined.
